(** * Mermaid-Layout: the occupancy-grid editor and its grid file

    A shallow embedding of [src/editor_prototype.py] and [utils.py]:
    the cell cycle of the click handler, grid seeding, the snapshot
    acquisition step, the event loop and the entry point, together with
    the percentage lines of [tests/test_layout_api.py].  Python integers
    are [Z], Python lists are [list] with Python's indexing rules
    written out, floats are binary64, exceptions are the [Raise] branch
    of [result], and files, directories, the camera and the window
    system make up a [World] that is passed along.

    [src/grid_api.py], [api/layout-api.py], [src/axis_test.py] and
    [overlay/overlay-api.py] are not among the sources; what the editor
    and the tests use of them is modelled from the specification, each
    definition saying so. *)

From Stdlib Require Import ZArith List Lia Ascii String Bool.
From Stdlib Require Import Decimal DecimalFacts DecimalPos DecimalZ DecimalString.
From Stdlib Require Import Uint63 PrimFloat FloatOps SpecFloat.
From stdpp Require Import base option list gmap strings.

Open Scope Z_scope.

(** ** Exceptions and results *)

Inductive exn : Type :=
  | KeyError
  | IndexError
  | ImportError (msg : string)
  | FileNotFoundError (msg : string)
  | FileExistsError
  | CameraError
  | OverlayError
  | SystemExit (code : Z).

Inductive result (A : Type) : Type :=
  | Ok (a : A)
  | Raise (e : exn).
Arguments Ok {A} a.
Arguments Raise {A} e.

#[global] Instance result_ret : MRet result := fun A a => Ok a.
#[global] Instance result_bind : MBind result := fun A B f m =>
  match m with
  | Ok a => f a
  | Raise e => Raise e
  end.

(** ** Python sequences *)

Module Py.

(** [l[i]]: a negative index counts from the end, anything outside
    [-len, len) raises IndexError. *)
Definition norm_index (len i : Z) : option nat :=
  let j := if i <? 0 then i + len else i in
  if (0 <=? j) && (j <? len) then Some (Z.to_nat j) else None.

Definition getitem {A} (l : list A) (i : Z) : result A :=
  match norm_index (Z.of_nat (length l)) i with
  | Some j => match l !! j with Some a => Ok a | None => Raise IndexError end
  | None => Raise IndexError
  end.

(** [l[i] = a] *)
Definition setitem {A} (l : list A) (i : Z) (a : A) : result (list A) :=
  match norm_index (Z.of_nat (length l)) i with
  | Some j => Ok (<[j := a]> l)
  | None => Raise IndexError
  end.

(** [range(n)]: empty when [n <= 0]. *)
Definition range (n : Z) : list Z := Z.of_nat <$> seq 0 (Z.to_nat n).

(** [for x in xs: body], threading the mutated object. *)
Fixpoint for_each {A S} (xs : list A) (body : A -> S -> result S) (s : S)
  : result S :=
  match xs with
  | [] => Ok s
  | x :: xs' => s' ← body x s; for_each xs' body s'
  end.

(** [int(v)] on a value that already is an int. *)
Definition int (v : Z) : Z := v.

(** [d[k]] on a dict: KeyError when the key is missing. *)
Definition dict_getitem (d : gmap Z Z) (k : Z) : result Z :=
  match d !! k with
  | Some v => Ok v
  | None => Raise KeyError
  end.

End Py.

(** ** Cell states and grids *)

(** Modelled from the spec: the constants [FREE], [OBSTACLE] and [HOME]
    that [editor_prototype.py] imports from [src/grid_api.py]; the data
    model gives them as FREE=0, OBSTACLE=1, HOME=2. *)
Definition FREE : Z := 0.
Definition OBSTACLE : Z := 1.
Definition HOME : Z := 2.

(** [Grid = List[List[int]]] *)
Abbreviation Grid := (list (list Z)).

Definition is_state (v : Z) : Prop := v = FREE \/ v = OBSTACLE \/ v = HOME.

#[global] Instance is_state_dec v : Decision (is_state v).
Proof. unfold is_state. apply _. Defined.

(** The data-model invariant: [rows] rows of [cols] cells each, every
    cell one of the three states. *)
Definition rectangular (rows cols : nat) (g : Grid) : Prop :=
  length g = rows /\ Forall (fun row => length row = cols) g.

Definition cells_valid (g : Grid) : Prop :=
  Forall (Forall is_state) g.

Definition grid_inv (rows cols : nat) (g : Grid) : Prop :=
  rectangular rows cols g /\ cells_valid g.

(** The cell at [(r, c)], if there is one. *)
Definition cell (g : Grid) (r c : nat) : option Z :=
  row ← g !! r; row !! c.

(** [g[r][c] = v]: the row object is fetched, then updated in place.
    The rows of a grid are distinct list objects (each is built by its
    own comprehension), so the update touches one row only. *)
Definition set_cell (g : Grid) (r c : Z) (v : Z) : result Grid :=
  row ← Py.getitem g r;
  row' ← Py.setitem row c v;
  Py.setitem g r row'.

(** ** [_seed_grid] *)

Definition _seed_grid (rows cols : Z) (persisted : list (list Z))
  : result Grid :=
  let seeded :=
    replicate (Z.to_nat rows) (replicate (Z.to_nat cols) FREE) in
  let max_row := Z.min rows (Z.of_nat (length persisted)) in
  Py.for_each (Py.range max_row) (fun row_idx seeded =>
    row ← Py.getitem persisted row_idx;
    let max_col := Z.min cols (Z.of_nat (length row)) in
    Py.for_each (Py.range max_col) (fun col_idx seeded =>
      v ← Py.getitem row col_idx;
      set_cell seeded row_idx col_idx (Py.int v)) seeded) seeded.

(** What the docstring and the specification say the result is: the
    persisted values that fit, FREE elsewhere. *)
Definition seed_row (cols : nat) (prow : list Z) : list Z :=
  take cols prow ++ replicate (cols - length prow)%nat FREE.

Definition seed_spec (rows cols : nat) (persisted : list (list Z)) : Grid :=
  (seed_row cols <$> take rows persisted)
  ++ replicate (rows - length persisted)%nat (replicate cols FREE).

(** ** The cell cycle of the click handler *)

(** The dict literal of [_handle_mouse]. *)
Definition next_state_table : gmap Z Z :=
  <[FREE := OBSTACLE]> (<[OBSTACLE := HOME]> (<[HOME := FREE]> ∅)).

Definition next_state (current : Z) : result Z :=
  Py.dict_getitem next_state_table current.

(** [n] successive clicks on a cell holding [s]. *)
Fixpoint next_state_iter (n : nat) (s : Z) : result Z :=
  match n with
  | O => Ok s
  | S n' => s' ← next_state s; next_state_iter n' s'
  end.

(** ** The overlay collaborator and the editor state *)

(** An image ([np.ndarray]): its shape and its pixel data. *)
Record Image : Type := mkImage {
  img_height : Z;
  img_width : Z;
  img_pixels : list Z;
}.

(** The dict [get_grid_cell_from_rectified] answers with. *)
Record CellInfo : Type := mkCellInfo {
  in_bounds : bool;
  ci_row : Z;
  ci_col : Z;
}.

(** The dict [transform_image] returns next to the rectified image. *)
Record OffsetInfo : Type := mkOffsetInfo {
  oi_offset_x : Z;
  oi_offset_y : Z;
}.

(** Modelled from the spec: the [GPSOverlay] object of
    [overlay/overlay-api.py], which is not among the sources; the editor
    uses its grid dimensions, [get_grid_cell_from_rectified(x, y)] and
    [transform_image(path)], here as a function of the image stored at
    the path.  The arena bounds and server size only feed drawing and
    console output. *)
Record GPSOverlay : Type := mkGPSOverlay {
  grid_rows : Z;
  grid_cols : Z;
  get_grid_cell_from_rectified : Z -> Z -> CellInfo;
  transform : Image -> result (Image * OffsetInfo);
}.

(** A file-system path, as its components. *)
Abbreviation path := (list string).

(** [EditorState], without the fields that only drawing reads
    ([arena_bounds], [cell_width], [cell_height]). *)
Record EditorState : Type := mkEditorState {
  grid : Grid;
  overlay : GPSOverlay;
  rows : Z;
  cols : Z;
  offset_x : Z;
  offset_y : Z;
  rectified_width : Z;
  rectified_height : Z;
  grid_path : path;
}.

Definition set_grid (state : EditorState) (g : Grid) : EditorState :=
  {| grid := g;
     overlay := overlay state;
     rows := rows state;
     cols := cols state;
     offset_x := offset_x state;
     offset_y := offset_y state;
     rectified_width := rectified_width state;
     rectified_height := rectified_height state;
     grid_path := grid_path state |}.

Definition _rectified_to_grid_cell (x y : Z) (state : EditorState)
  : option (Z * Z) :=
  let x_canvas := x + offset_x state in
  let y_canvas := y + offset_y state in
  let cell_info :=
    get_grid_cell_from_rectified (overlay state) x_canvas y_canvas in
  if negb (in_bounds cell_info) then None
  else Some (ci_row cell_info, ci_col cell_info).

(** [cv2.EVENT_LBUTTONDOWN] *)
Definition EVENT_LBUTTONDOWN : Z := 1.

(** [_handle_mouse]; the console output after the update is left out.
    The state object is mutated by the last assignment only, so a raised
    exception leaves it as it was. *)
Definition _handle_mouse (event x y _flags : Z) (state : EditorState)
  : result EditorState :=
  if negb (event =? EVENT_LBUTTONDOWN) then Ok state
  else
    match _rectified_to_grid_cell x y state with
    | None => Ok state
    | Some (row, col) =>
        grid_row ← Py.getitem (grid state) row;
        current ← Py.getitem grid_row col;
        updated_value ← next_state current;
        grid' ← set_cell (grid state) row col updated_value;
        Ok (set_grid state grid')
    end.

(** One mouse event as the window system delivers it to the callback. *)
Record MouseEvent : Type := mkMouseEvent {
  me_event : Z;
  me_x : Z;
  me_y : Z;
  me_flags : Z;
}.

(** The state object after the callback ran on an event: the handler's
    result, or the untouched object when the handler raised. *)
Definition after_mouse (state : EditorState) (ev : MouseEvent)
  : EditorState :=
  match _handle_mouse (me_event ev) (me_x ev) (me_y ev) (me_flags ev) state with
  | Ok state' => state'
  | Raise _ => state
  end.

Definition after_mouse_events (state : EditorState) (evs : list MouseEvent)
  : EditorState :=
  foldl after_mouse state evs.

(** ** The grid file: JSON text *)

(** Modelled from the spec: the format [src/grid_api.py] (not among the
    sources) reads and writes, a JSON array of arrays of integers;
    written the way [json.dump] writes it, read with any whitespace
    between the tokens. *)
Module Json.

Inductive token : Type :=
  | LBRACKET
  | RBRACKET
  | COMMA
  | INT (z : Z)
  | BAD.

(** *** Writing *)

Fixpoint uint_chars (d : Decimal.uint) : list ascii :=
  match d with
  | Decimal.Nil => []
  | Decimal.D0 d' => "0"%char :: uint_chars d'
  | Decimal.D1 d' => "1"%char :: uint_chars d'
  | Decimal.D2 d' => "2"%char :: uint_chars d'
  | Decimal.D3 d' => "3"%char :: uint_chars d'
  | Decimal.D4 d' => "4"%char :: uint_chars d'
  | Decimal.D5 d' => "5"%char :: uint_chars d'
  | Decimal.D6 d' => "6"%char :: uint_chars d'
  | Decimal.D7 d' => "7"%char :: uint_chars d'
  | Decimal.D8 d' => "8"%char :: uint_chars d'
  | Decimal.D9 d' => "9"%char :: uint_chars d'
  end.

Definition int_chars (z : Z) : list ascii :=
  match Z.to_int z with
  | Decimal.Pos d => uint_chars d
  | Decimal.Neg d => "-"%char :: uint_chars d
  end.

(** [", ".join(item(x) for x in l)] *)
Definition sep_by {A} (item : A -> list ascii) (l : list A) : list ascii :=
  match l with
  | [] => []
  | x :: l' =>
      item x ++ flat_map (fun y => ","%char :: " "%char :: item y) l'
  end.

Definition row_chars (row : list Z) : list ascii :=
  "["%char :: sep_by int_chars row ++ ["]"%char].

Definition grid_chars (g : list (list Z)) : list ascii :=
  "["%char :: sep_by row_chars g ++ ["]"%char].

(** [json.dumps(grid)] *)
Definition dumps (g : list (list Z)) : string :=
  string_of_list_ascii (grid_chars g).

(** *** Reading: characters to tokens *)

Definition digit_of_char (c : ascii)
  : option (Decimal.uint -> Decimal.uint) :=
  if Ascii.eqb c "0" then Some Decimal.D0
  else if Ascii.eqb c "1" then Some Decimal.D1
  else if Ascii.eqb c "2" then Some Decimal.D2
  else if Ascii.eqb c "3" then Some Decimal.D3
  else if Ascii.eqb c "4" then Some Decimal.D4
  else if Ascii.eqb c "5" then Some Decimal.D5
  else if Ascii.eqb c "6" then Some Decimal.D6
  else if Ascii.eqb c "7" then Some Decimal.D7
  else if Ascii.eqb c "8" then Some Decimal.D8
  else if Ascii.eqb c "9" then Some Decimal.D9
  else None.

Definition is_space (c : ascii) : bool :=
  Ascii.eqb c " " || Ascii.eqb c "010" || Ascii.eqb c "013"
  || Ascii.eqb c "009".

(** A number being read: its sign and its digits, the last one first. *)
Abbreviation pending := (option (bool * Decimal.uint)).

Definition flush (p : pending) : list token :=
  match p with
  | None => []
  | Some (_, Decimal.Nil) => [BAD]
  | Some (true, d) => [INT (Z.of_int (Decimal.Neg (Decimal.rev d)))]
  | Some (false, d) => [INT (Z.of_int (Decimal.Pos (Decimal.rev d)))]
  end.

Definition punct (c : ascii) : list token :=
  if Ascii.eqb c "[" then [LBRACKET]
  else if Ascii.eqb c "]" then [RBRACKET]
  else if Ascii.eqb c "," then [COMMA]
  else if is_space c then []
  else [BAD].

Fixpoint lex (p : pending) (cs : list ascii) : list token :=
  match cs with
  | [] => flush p
  | c :: cs' =>
      match digit_of_char c with
      | Some D =>
          match p with
          | None => lex (Some (false, D Decimal.Nil)) cs'
          | Some (neg, d) => lex (Some (neg, D d)) cs'
          end
      | None =>
          if Ascii.eqb c "-" then
            match p with
            | None => lex (Some (true, Decimal.Nil)) cs'
            | Some _ => [BAD]
            end
          else flush p ++ punct c ++ lex None cs'
      end
  end.

(** *** Reading: tokens to an array of arrays of integers *)

Inductive pstate : Type :=
  | Start        (* before the outer bracket *)
  | OuterOpen    (* after the outer bracket *)
  | AfterRow     (* after a row *)
  | OuterComma   (* after a comma between rows *)
  | RowOpen      (* after the bracket of a row *)
  | AfterInt     (* after a number *)
  | RowComma     (* after a comma between numbers *)
  | Done.        (* after the closing outer bracket *)

Record parser : Type := mkParser {
  p_state : pstate;
  p_rows : list (list Z);  (* the rows read, the last one first *)
  p_row : list Z;          (* the numbers of the row being read, reversed *)
}.

Definition step (ps : parser) (t : token) : option parser :=
  let '(mkParser st rs r) := ps in
  match st, t with
  | Start, LBRACKET => Some (mkParser OuterOpen rs r)
  | OuterOpen, LBRACKET => Some (mkParser RowOpen rs [])
  | OuterOpen, RBRACKET => Some (mkParser Done rs r)
  | AfterRow, COMMA => Some (mkParser OuterComma rs r)
  | AfterRow, RBRACKET => Some (mkParser Done rs r)
  | OuterComma, LBRACKET => Some (mkParser RowOpen rs [])
  | RowOpen, INT z => Some (mkParser AfterInt rs [z])
  | RowOpen, RBRACKET => Some (mkParser AfterRow ([] :: rs) [])
  | AfterInt, COMMA => Some (mkParser RowComma rs r)
  | AfterInt, RBRACKET => Some (mkParser AfterRow (reverse r :: rs) [])
  | RowComma, INT z => Some (mkParser AfterInt rs (z :: r))
  | _, _ => None
  end.

Fixpoint run (ps : parser) (ts : list token) : option parser :=
  match ts with
  | [] => Some ps
  | t :: ts' => ps' ← step ps t; run ps' ts'
  end.

Definition parse (ts : list token) : option (list (list Z)) :=
  ps ← run (mkParser Start [] []) ts;
  match p_state ps with
  | Done => Some (reverse (p_rows ps))
  | _ => None
  end.

(** [json.loads(text)], as far as arrays of arrays of integers go:
    [None] for any other text. *)
Definition loads (text : string) : option (list (list Z)) :=
  parse (lex None (list_ascii_of_string text)).

End Json.

(** ** The world the editor runs in *)

Inductive file : Type :=
  | FText (text : string)
  | FImage (img : Image).

(** What the program does to its collaborators, in order. *)
Inductive effect : Type :=
  | OverlayLoaded (calibration : path)
  | CameraFetched
  | NamedWindow (name : string)
  | SetMouseCallback (name : string)
  | SetFullscreen (name : string) (on : bool)
  | Imshow (name : string) (frame : Image)
  | DestroyWindow (name : string).

Record World : Type := mkWorld {
  w_files : gmap path file;   (* the regular files *)
  w_dirs : gset path;         (* the directories, besides the root [[]] *)
  w_camera : option Image;    (* what the camera answers, if it does *)
  w_log : list effect;        (* the effects so far, the latest last *)
}.

Definition set_files (w : World) (fs : gmap path file) : World :=
  mkWorld fs (w_dirs w) (w_camera w) (w_log w).
Definition set_dirs (w : World) (ds : gset path) : World :=
  mkWorld (w_files w) ds (w_camera w) (w_log w).
Definition add_log (w : World) (e : effect) : World :=
  mkWorld (w_files w) (w_dirs w) (w_camera w) (w_log w ++ [e]).

(** A computation that reads and changes the world and may raise. *)
Definition IO (A : Type) : Type := World -> result A * World.

#[global] Instance io_ret : MRet IO := fun A a w => (Ok a, w).
#[global] Instance io_bind : MBind IO := fun A B f m w =>
  match m w with
  | (Ok a, w') => f a w'
  | (Raise e, w') => (Raise e, w')
  end.

Definition io_raise {A} (e : exn) : IO A := fun w => (Raise e, w).
Definition io_lift {A} (r : result A) : IO A := fun w => (r, w).
Definition io_log (e : effect) : IO unit := fun w => (Ok tt, add_log w e).

(** [Path.parent] and [str(path)] *)
Definition parent (p : path) : path := take (length p - 1)%nat p.
Definition path_str (p : path) : string := String.concat "/" p.

Definition dir_exists (d : path) (w : World) : bool :=
  bool_decide (d = [] \/ d ∈ w_dirs w).

(** [path.exists()] *)
Definition path_exists (p : path) : IO bool := fun w =>
  (Ok (bool_decide (is_Some (w_files w !! p)) || dir_exists p w), w).

(** [cv2.imread]: [None] when there is no image to read at the path. *)
Definition cv2_imread (p : path) : IO (option Image) := fun w =>
  (Ok match w_files w !! p with
      | Some (FImage img) => Some img
      | _ => None
      end, w).

(** [cv2.imwrite]: writes when the directory is there, and answers
    whether it did. *)
Definition cv2_imwrite (p : path) (img : Image) : IO bool := fun w =>
  if dir_exists (parent p) w
  then (Ok true, set_files w (<[p := FImage img]> (w_files w)))
  else (Ok false, w).

(** [d.mkdir(parents=True, exist_ok=True)] *)
Definition ancestors (d : path) : list path :=
  (fun n => take n d) <$> seq 1 (length d).

Definition mkdir_parents (d : path) : IO unit := fun w =>
  if bool_decide (Exists (fun a => is_Some (w_files w !! a)) (ancestors d))
  then (Raise FileExistsError, w)
  else (Ok tt, set_dirs w (w_dirs w ∪ list_to_set (ancestors d))).

(** Modelled from the spec: [fetch_axis_snapshot] of [src/axis_test.py],
    which is not among the sources: a blocking fetch that returns an
    image or fails for good. *)
Definition fetch_axis_snapshot : IO Image := fun w =>
  match w_camera w with
  | Some img => (Ok img, add_log w CameraFetched)
  | None => (Raise CameraError, w)
  end.

(** [overlay.transform_image(str(path), show_grid=True)] *)
Definition transform_image (ov : GPSOverlay) (p : path)
  : IO (Image * OffsetInfo) :=
  loaded ← cv2_imread p;
  match loaded with
  | Some img => io_lift (transform ov img)
  | None => io_raise OverlayError
  end.

(** ** The grid codec ([src/grid_api.py]) *)

(** Modelled from the spec: [load_grid] of [src/grid_api.py], which is
    not among the sources: parse a JSON array of arrays of integers; a
    missing or corrupt file gives the empty grid. *)
Definition load_grid (p : path) : IO Grid := fun w =>
  match w_files w !! p with
  | Some (FText text) =>
      match Json.loads text with
      | Some g => (Ok g, w)
      | None => (Ok [], w)
      end
  | _ => (Ok [], w)
  end.

(** Modelled from the spec: [save_grid] of [src/grid_api.py], which is
    not among the sources: write the grid as nested integer arrays over
    the target file; a missing parent directory is not created. *)
Definition save_grid (g : Grid) (p : path) : IO unit := fun w =>
  if dir_exists (parent p) w
  then (Ok tt, set_files w (<[p := FText (Json.dumps g)]> (w_files w)))
  else (Raise (FileNotFoundError (path_str p)), w).

(** ** [_get_rectified_frame] *)

Definition rectified_path : path := ["snapshot_rectified.png"%string].

Definition _get_rectified_frame (ov : GPSOverlay)
    (snapshot_path : option path) : IO (Image * Z * Z * OffsetInfo) :=
  let snapshot_path :=
    match snapshot_path with
    | None => ["snapshot_raw.png"%string]
    | Some p => p
    end in
  found ← path_exists snapshot_path;
  raw_frame ←
    (if found : bool then
       loaded ← cv2_imread snapshot_path;
       match loaded with
       | None =>
           raw_frame ← fetch_axis_snapshot;
           _ ← cv2_imwrite snapshot_path raw_frame;
           mret raw_frame
       | Some raw_frame => mret raw_frame
       end
     else
       raw_frame ← fetch_axis_snapshot;
       _ ← mkdir_parents (parent snapshot_path);
       _ ← cv2_imwrite snapshot_path raw_frame;
       mret raw_frame);
  '(rectified, offset_info) ← transform_image ov snapshot_path;
  let rectified_height := img_height rectified in
  let rectified_width := img_width rectified in
  _ ← cv2_imwrite rectified_path rectified;
  mret (rectified, rectified_width, rectified_height, offset_info).

(** ** The editor *)

(** One turn of [cv2.waitKey(1)]: the mouse events the window system
    hands to the callback meanwhile, then the key code it returns. *)
Record Poll : Type := mkPoll {
  poll_mouse : list MouseEvent;
  poll_key : Z;
}.

(** How the event loop stands once the given polls are used up. *)
Inductive loop_end : Type :=
  | Quit            (* [q] was pressed *)
  | AwaitingInput.  (* still looping *)

(** Modelled from the spec: the module [overlay/overlay-api.py] once
    imported; the editor takes the [GPSOverlay] class from it. *)
Record OverlayModule : Type := mkOverlayModule {
  GPSOverlay_new : path -> IO GPSOverlay;
}.

Definition window_name : string := "Mermaid AI Grid Editor (Rectified)".
Definition rectified_with_grid_path : path :=
  ["snapshot_rectified_with_grid.png"%string].

Section Editor.

(** [DEFAULT_GRID_PATH] of [src/grid_api.py] and the directory above
    [src/], both fixed by the installation. *)
Variable DEFAULT_GRID_PATH : path.
Variable project_root : path.

(** The two drawing functions work on pixels through [cv2]; they are
    taken as given, and may raise. *)
Variable _draw_grid_overlay : Image -> EditorState -> result Image.
Variable _draw_header_overlay : Image -> EditorState -> result Image.

(** [importlib]: whether a loader is found for a file, and what
    executing the module gives. *)
Variable has_loader : path -> bool.
Variable exec_module : path -> IO OverlayModule.

(** The body of [while True], once per poll. *)
Fixpoint editor_loop (polls : list Poll) (base_rectified_frame : Image)
    (state : EditorState) (is_fullscreen : bool)
  : IO (loop_end * EditorState) :=
  match polls with
  | [] => mret (AwaitingInput, state)
  | poll :: polls' =>
      display_frame ← io_lift (_draw_grid_overlay base_rectified_frame state);
      display_frame_with_header ←
        io_lift (_draw_header_overlay display_frame state);
      _ ← io_log (Imshow window_name display_frame_with_header);
      let state := after_mouse_events state (poll_mouse poll) in
      let key := Z.land (poll_key poll) 255 in
      if key =? 113 then mret (Quit, state)
      else
        _ ← (if key =? 115
             then save_grid (grid state) (grid_path state)
             else mret tt);
        _ ← (if key =? 105
             then _ ← cv2_imwrite rectified_with_grid_path display_frame;
                  mret tt
             else mret tt);
        is_fullscreen ←
          (if key =? 102
           then _ ← io_log (SetFullscreen window_name (negb is_fullscreen));
                mret (negb is_fullscreen)
           else mret is_fullscreen);
        editor_loop polls' base_rectified_frame state is_fullscreen
  end.

(** [try: ... finally: cv2.destroyWindow(window_name)] around the loop:
    the window is destroyed once the loop is left, by [q] or by an
    exception. *)
Definition try_finally_destroy (loop : IO (loop_end * EditorState))
  : IO (loop_end * EditorState) := fun w =>
  match loop w with
  | (Ok (AwaitingInput, state'), w') => (Ok (AwaitingInput, state'), w')
  | (r, w') => (r, add_log w' (DestroyWindow window_name))
  end.

(** [run_editor]; the model hands back the state object the loop ends
    with.  The [finally] clause runs when the loop is left. *)
Definition run_editor (ov : GPSOverlay) (grid_path : path)
    (polls : list Poll) : IO (loop_end * EditorState) :=
  let rows := grid_rows ov in
  let cols := grid_cols ov in
  persisted ← load_grid grid_path;
  grid ← io_lift (_seed_grid rows cols persisted);
  '(rectified_frame, rect_width, rect_height, offset_info) ←
    _get_rectified_frame ov None;
  let state :=
    mkEditorState grid ov rows cols
      (oi_offset_x offset_info) (oi_offset_y offset_info)
      rect_width rect_height grid_path in
  _ ← io_log (NamedWindow window_name);
  _ ← io_log (SetMouseCallback window_name);
  _ ← io_log (SetFullscreen window_name true);
  let base_rectified_frame := rectified_frame in
  initial_display_frame ←
    io_lift (_draw_grid_overlay base_rectified_frame state);
  _ ← cv2_imwrite rectified_with_grid_path initial_display_frame;
  try_finally_destroy (editor_loop polls base_rectified_frame state true).

(** [load_module] of [utils.py] *)
Definition load_module (file_path : path) (module_name : string)
  : IO OverlayModule :=
  found ← path_exists file_path;
  if negb found then
    io_raise (ImportError ("Module file not found: " +:+ path_str file_path))
  else if negb (has_loader file_path) then
    io_raise (ImportError
                ("Could not create spec for module: " +:+ path_str file_path))
  else exec_module file_path.

(** [except Exception] does not catch [SystemExit]. *)
Definition is_Exception (e : exn) : bool :=
  match e with
  | SystemExit _ => false
  | _ => true
  end.

(** [import_api] of [utils.py]; what it prints is left out. *)
Definition import_api (api_path : path) (module_name : string)
    (error_msg : option string) : IO OverlayModule := fun w =>
  match load_module api_path module_name w with
  | (Ok m, w') => (Ok m, w')
  | (Raise e, w') =>
      if is_Exception e then (Raise (SystemExit 1), w') else (Raise e, w')
  end.

Definition overlay_path : path :=
  project_root ++ ["overlay"; "gps_overlay.json"]%string.

(** [main] of [editor_prototype.py], given the imported overlay module. *)
Definition main (overlay_api : OverlayModule) (polls : list Poll)
  : IO (loop_end * EditorState) :=
  found ← path_exists overlay_path;
  if negb found then
    io_raise (FileNotFoundError
      ("GPS overlay configuration not found at " +:+ path_str overlay_path
       +:+ ". "
       +:+ "Please ensure gps_overlay.json exists in the overlay/ folder."))
  else
    _ ← io_log (OverlayLoaded overlay_path);
    ov ← GPSOverlay_new overlay_api overlay_path;
    run_editor ov DEFAULT_GRID_PATH polls.

(** [main.py]: importing [src.editor_prototype] imports the overlay
    module, then [main()] runs. *)
Definition script (polls : list Poll) : IO (loop_end * EditorState) :=
  overlay_api ← import_api (project_root ++ ["overlay"; "overlay-api.py"]%string)
                   "overlay_api" None;
  main overlay_api polls.

End Editor.

(** ** The query API ([api/layout-api.py]) *)

Module LayoutApi.

(** Modelled from the spec: [get_map_json] of [api/layout-api.py], which
    is not among the sources: the raw data of the grid file. *)
Definition get_map_json (p : path) : IO Grid := load_grid p.

(** Modelled from the spec: the category names of the symbol mapping,
    as the tests and examples spell them. *)
Definition cell_name (v : Z) : option string :=
  if v =? FREE then Some "FREE"%string
  else if v =? OBSTACLE then Some "OBSTACLE"%string
  else if v =? HOME then Some "HOME"%string
  else None.

(** Modelled from the spec: the symbol of a cell under a mapping; a
    cell or name outside the mapping shows as a question mark, as in the
    editor's own [DISPLAY_SYMBOL.get(cell, "?")]. *)
Definition symbol_of (symbols : gmap string string) (v : Z) : string :=
  default "?"%string (name ← cell_name v; symbols !! name).

(** Modelled from the spec: [get_map] of [api/layout-api.py], which is
    not among the sources: a copy of the grid with every cell replaced
    by its symbol, under a configurable symbol mapping (the default
    mapping is a constant of that module and is passed in here). *)
Definition get_map (symbols : gmap string string) (p : path)
  : IO (list (list string)) :=
  g ← load_grid p;
  mret (fmap (M := list) (fmap (M := list) (symbol_of symbols)) g).

(** Modelled from the spec: [get_map_as_string] of [api/layout-api.py],
    which is not among the sources: the symbols of a row joined by the
    cell separator, the rows joined by newlines. *)
Definition get_map_as_string (symbols : gmap string string)
    (cell_separator : string) (p : path) : IO string :=
  m ← get_map symbols p;
  mret (String.concat (String "010" EmptyString)
          (String.concat cell_separator <$> m)).

(** Modelled from the spec: the dict [get_map_info] returns, with the
    keys the tests and examples read. *)
Record MapInfo : Type := mkMapInfo {
  info_rows : Z;
  info_cols : Z;
  total_cells : Z;
  free_count : Z;
  obstacle_count : Z;
  home_count : Z;
}.

(** Modelled from the spec: the number of cells of a category. *)
Definition count_cells (v : Z) (g : Grid) : Z :=
  Z.of_nat (count_occ Z.eq_dec (concat g) v).

(** Modelled from the spec: [get_map_info] of [api/layout-api.py], which
    is not among the sources: the dimensions of the grid and the number
    of cells per category. *)
Definition get_map_info (p : path) : IO MapInfo :=
  g ← load_grid p;
  let nrows := Z.of_nat (length g) in
  let ncols := match g with
               | [] => 0
               | row :: _ => Z.of_nat (length row)
               end in
  mret (mkMapInfo nrows ncols (nrows * ncols)
          (count_cells FREE g) (count_cells OBSTACLE g)
          (count_cells HOME g)).

End LayoutApi.

(** ** Python floats *)

Module PyFloat.

Inductive fresult : Type :=
  | FOk (x : float)
  | ZeroDivisionError.

(** [float(n)] for [0 <= n < 2^53], where it is exact. *)
Definition of_int (n : Z) : float := PrimFloat.of_uint63 (Uint63.of_Z n).

(** [a / b] on ints in that range: the correctly rounded quotient. *)
Definition truediv (a b : Z) : fresult :=
  if b =? 0 then ZeroDivisionError
  else FOk (PrimFloat.div (of_int a) (of_int b)).

(** The integer nearest to [n / d], ties to even ([d > 0]). *)
Definition round_half_even (n d : Z) : Z :=
  let q := n / d in
  let r := n mod d in
  if 2 * r <? d then q
  else if d <? 2 * r then q + 1
  else if Z.even q then q else q + 1.

Definition str_nat (n : Z) : string :=
  DecimalString.NilZero.string_of_uint (N.to_uint (Z.to_N n)).

(** [f"{x:.1f}"]: the exact binary value, rounded to one decimal. *)
Definition format_1f (x : float) : string :=
  match FloatOps.Prim2SF x with
  | SpecFloat.S754_zero false => "0.0"%string
  | SpecFloat.S754_zero true => "-0.0"%string
  | SpecFloat.S754_infinity false => "inf"%string
  | SpecFloat.S754_infinity true => "-inf"%string
  | SpecFloat.S754_nan => "nan"%string
  | SpecFloat.S754_finite sign m e =>
      let tenths :=
        if 0 <=? e then 10 * Z.pos m * 2 ^ e
        else round_half_even (10 * Z.pos m) (2 ^ (- e)) in
      ((if sign then "-" else EmptyString)
       +:+ str_nat (tenths / 10) +:+ "." +:+ str_nat (tenths mod 10))%string
  end.

End PyFloat.

(** ** [tests/test_layout_api.py] *)

Module TestLayoutApi.
Import LayoutApi.

(** The percentage lines of [test_get_map_info] (and of
    [example_map_info]): [(count / total_cells) * 100] printed with
    [:.1f], under the guard [total_cells > 0]. *)
Definition percent (count total : Z) : option string :=
  match PyFloat.truediv count total with
  | PyFloat.FOk x => Some (PyFloat.format_1f (PrimFloat.mul x 100%float))
  | PyFloat.ZeroDivisionError => None
  end.

Definition percentages (info : MapInfo) : list (option string) :=
  if 0 <? total_cells info then
    [percent (free_count info) (total_cells info);
     percent (obstacle_count info) (total_cells info);
     percent (home_count info) (total_cells info)]
  else [].

(** [test_get_map_info]: the statistics it prints and the percentage
    lines after them. *)
Definition test_get_map_info (p : path)
  : IO (MapInfo * list (option string)) :=
  info ← get_map_info p;
  mret (info, percentages info).

End TestLayoutApi.


(** ** Python indexing at a natural-number index *)

Lemma norm_index_nat (len i : nat) :
  (i < len)%nat -> Py.norm_index (Z.of_nat len) (Z.of_nat i) = Some i.
Proof.
  intros Hlt. unfold Py.norm_index.
  destruct (Z.ltb_spec (Z.of_nat i) 0) as [Hneg|_]; [lia|].
  destruct (Z.leb_spec 0 (Z.of_nat i)) as [_|Hneg]; [|lia].
  destruct (Z.ltb_spec (Z.of_nat i) (Z.of_nat len)) as [_|Hge]; [|lia].
  simpl. by rewrite Nat2Z.id.
Qed.

Lemma getitem_nat {A} (l : list A) (i : nat) (a : A) :
  l !! i = Some a -> Py.getitem l (Z.of_nat i) = Ok a.
Proof.
  intros Hl. unfold Py.getitem.
  rewrite norm_index_nat by (by eapply lookup_lt_Some).
  by rewrite Hl.
Qed.

Lemma setitem_nat {A} (l : list A) (i : nat) (a : A) :
  (i < length l)%nat -> Py.setitem l (Z.of_nat i) a = Ok (<[i := a]> l).
Proof.
  intros Hlt. unfold Py.setitem. by rewrite norm_index_nat.
Qed.

Lemma set_cell_nat (g : Grid) (r c : nat) (v : Z) (row : list Z) :
  g !! r = Some row -> (c < length row)%nat ->
  set_cell g (Z.of_nat r) (Z.of_nat c) v = Ok (<[r := <[c := v]> row]> g).
Proof.
  intros Hrow Hc. unfold set_cell.
  rewrite (getitem_nat _ _ _ Hrow). simpl.
  rewrite setitem_nat by done. simpl.
  apply setitem_nat. by eapply lookup_lt_Some.
Qed.

Lemma range_min (n : Z) (len : nat) :
  Py.range (Z.min n (Z.of_nat len))
  = Z.of_nat <$> seq 0 (Z.to_nat n `min` len).
Proof.
  unfold Py.range. f_equal. f_equal.
  destruct (Z.le_gt_cases n 0) as [Hn|Hn].
  - rewrite Z.min_l by lia. rewrite (Z2Nat.nonpos n) by done. done.
  - rewrite Z2Nat.inj_min, Nat2Z.id. done.
Qed.

Lemma for_each_cons {A S} (x : A) xs (body : A -> S -> result S) (s : S) :
  Py.for_each (x :: xs) body s = body x s ≫= Py.for_each xs body.
Proof. reflexivity. Qed.

(** ** The loops of [_seed_grid] *)

Section seed_loops.
Variables (rows : nat) (colsZ : Z).
Let cols : nat := Z.to_nat colsZ.

Definition blank_row : list Z := replicate cols FREE.

(** Row [r] of the grid after columns [0 .. k-1] were copied. *)
Definition row_after (prow : list Z) (k : nat) : list Z :=
  take k prow ++ replicate (cols - k) FREE.

(** The grid after rows [0 .. k-1] were copied. *)
Definition grid_after (persisted : list (list Z)) (k : nat) : Grid :=
  (seed_row cols <$> take k persisted) ++ replicate (rows - k) blank_row.

Definition inner_body (row : list Z) (row_idx : Z) :=
  fun (col_idx : Z) (seeded : Grid) =>
    v ← Py.getitem row col_idx;
    set_cell seeded row_idx col_idx (Py.int v).

Lemma row_after_length prow k : (k <= cols)%nat -> (k <= length prow)%nat ->
  length (row_after prow k) = cols.
Proof.
  intros Hk Hp. unfold row_after.
  rewrite length_app, length_take, length_replicate. lia.
Qed.

Lemma row_after_step prow k v :
  prow !! k = Some v -> (k < cols)%nat ->
  <[k := v]> (row_after prow k) = row_after prow (S k).
Proof.
  intros Hv Hk. unfold row_after.
  pose proof (lookup_lt_Some _ _ _ Hv) as Hlen.
  rewrite insert_app_r_alt by (rewrite length_take; lia).
  rewrite length_take, Nat.min_l, Nat.sub_diag by lia.
  rewrite (take_S_r _ _ _ Hv), <- app_assoc. f_equal.
  replace (cols - k)%nat with (S (cols - S k)) by lia. done.
Qed.

Lemma row_after_all prow :
  row_after prow (cols `min` length prow) = seed_row cols prow.
Proof.
  unfold row_after, seed_row.
  destruct (Nat.le_gt_cases cols (length prow)) as [Hle|Hgt].
  - rewrite Nat.min_l by done. do 2 f_equal. lia.
  - rewrite Nat.min_r by lia. rewrite !take_ge by lia. done.
Qed.

Lemma seed_inner_step (g : Grid) (r : nat) (prow : list Z) k :
  (r < length g)%nat -> (k < cols)%nat -> (k < length prow)%nat ->
  inner_body prow (Z.of_nat r) (Z.of_nat k) (<[r := row_after prow k]> g)
  = Ok (<[r := row_after prow (S k)]> g).
Proof.
  intros Hr Hc Hp. unfold inner_body.
  destruct (lookup_lt_is_Some_2 prow k) as [v Hv]; [lia|].
  rewrite (getitem_nat _ _ _ Hv). simpl.
  rewrite (set_cell_nat _ _ _ _ (row_after prow k)).
  - unfold Py.int. by rewrite list_insert_insert_eq, (row_after_step _ _ _ Hv).
  - by apply list_lookup_insert_eq.
  - rewrite row_after_length by lia. lia.
Qed.

Lemma seed_inner_loop (g : Grid) (r : nat) (prow : list Z) n k :
  (r < length g)%nat ->
  (k + n <= cols)%nat -> (k + n <= length prow)%nat ->
  Py.for_each (Z.of_nat <$> seq k n) (inner_body prow (Z.of_nat r))
    (<[r := row_after prow k]> g)
  = Ok (<[r := row_after prow (k + n)]> g).
Proof.
  intros Hr. revert k. induction n as [|n IH]; intros k Hc Hp.
  - simpl. by rewrite Nat.add_0_r.
  - rewrite <- cons_seq, fmap_cons, for_each_cons.
    rewrite seed_inner_step by lia. simpl.
    rewrite IH by lia. do 3 f_equal. lia.
Qed.

Definition outer_body (persisted : list (list Z)) :=
  fun (row_idx : Z) (seeded : Grid) =>
    row ← Py.getitem persisted row_idx;
    let max_col := Z.min colsZ (Z.of_nat (length row)) in
    Py.for_each (Py.range max_col) (inner_body row row_idx) seeded.

Lemma grid_after_length persisted k :
  (k <= rows)%nat -> (k <= length persisted)%nat ->
  length (grid_after persisted k) = rows.
Proof.
  intros Hk Hp. unfold grid_after.
  rewrite length_app, length_fmap, length_take, length_replicate. lia.
Qed.

Lemma grid_after_step persisted k prow :
  persisted !! k = Some prow -> (k < rows)%nat ->
  <[k := seed_row cols prow]> (grid_after persisted k)
  = grid_after persisted (S k).
Proof.
  intros Hv Hk. unfold grid_after.
  pose proof (lookup_lt_Some _ _ _ Hv) as Hlen.
  rewrite insert_app_r_alt by (rewrite length_fmap, length_take; lia).
  rewrite length_fmap, length_take, Nat.min_l, Nat.sub_diag by lia.
  rewrite (take_S_r _ _ _ Hv), fmap_app, <- app_assoc. f_equal.
  replace (rows - k)%nat with (S (rows - S k)) by lia. done.
Qed.

Lemma grid_after_row persisted k :
  (k < rows)%nat -> (k <= length persisted)%nat ->
  grid_after persisted k !! k = Some blank_row.
Proof.
  intros Hk Hp. unfold grid_after.
  rewrite lookup_app_r by (rewrite length_fmap, length_take; lia).
  rewrite length_fmap, length_take, Nat.min_l, Nat.sub_diag by lia.
  replace (rows - k)%nat with (S (rows - S k)) by lia. done.
Qed.

Lemma seed_outer_step persisted k prow :
  persisted !! k = Some prow -> (k < rows)%nat ->
  outer_body persisted (Z.of_nat k) (grid_after persisted k)
  = Ok (grid_after persisted (S k)).
Proof.
  intros Hv Hk. unfold outer_body.
  pose proof (lookup_lt_Some _ _ _ Hv) as Hlen.
  rewrite (getitem_nat _ _ _ Hv). simpl.
  rewrite range_min. fold cols.
  assert (grid_after persisted k
          = <[k := row_after prow 0]> (grid_after persisted k)) as ->.
  { symmetry. apply list_insert_id.
    rewrite grid_after_row by lia. unfold row_after, blank_row.
    by rewrite take_0, Nat.sub_0_r. }
  rewrite seed_inner_loop.
  - rewrite row_after_all. f_equal. by apply grid_after_step.
  - rewrite grid_after_length; lia.
  - lia.
  - lia.
Qed.

Lemma seed_outer_loop persisted n k :
  (k + n <= rows)%nat -> (k + n <= length persisted)%nat ->
  Py.for_each (Z.of_nat <$> seq k n) (outer_body persisted)
    (grid_after persisted k)
  = Ok (grid_after persisted (k + n)).
Proof.
  revert k. induction n as [|n IH]; intros k Hr Hp.
  - simpl. by rewrite Nat.add_0_r.
  - rewrite <- cons_seq, fmap_cons, for_each_cons.
    destruct (lookup_lt_is_Some_2 persisted k) as [prow Hv]; [lia|].
    rewrite (seed_outer_step _ _ _ Hv) by lia. simpl.
    rewrite IH by lia. do 2 f_equal. lia.
Qed.

Lemma grid_after_all persisted :
  grid_after persisted (rows `min` length persisted)
  = seed_spec rows cols persisted.
Proof.
  unfold grid_after, seed_spec, blank_row.
  destruct (Nat.le_gt_cases rows (length persisted)) as [Hle|Hgt].
  - rewrite Nat.min_l by done. do 2 f_equal. lia.
  - rewrite Nat.min_r by lia. rewrite !take_ge by lia. done.
Qed.
End seed_loops.

(** [_seed_grid] never raises and computes [seed_spec]. *)
Lemma seed_grid_refines (rows cols : Z) (persisted : list (list Z)) :
  _seed_grid rows cols persisted
  = Ok (seed_spec (Z.to_nat rows) (Z.to_nat cols) persisted).
Proof.
  unfold _seed_grid. rewrite range_min.
  pose proof (seed_outer_loop (Z.to_nat rows) cols persisted
                (Z.to_nat rows `min` length persisted) 0) as Hloop.
  rewrite Nat.add_0_l, grid_after_all in Hloop.
  unfold grid_after, blank_row in Hloop.
  rewrite take_0, fmap_nil, app_nil_l, Nat.sub_0_r in Hloop.
  apply Hloop; lia.
Qed.

(** ** Properties of [seed_spec] *)

Lemma seed_row_length cols prow : length (seed_row cols prow) = cols.
Proof.
  unfold seed_row. rewrite length_app, length_take, length_replicate. lia.
Qed.

Lemma seed_row_lookup cols prow (c : nat) :
  (c < cols)%nat -> seed_row cols prow !! c = Some (default FREE (prow !! c)).
Proof.
  intros Hc. unfold seed_row.
  destruct (Nat.lt_ge_cases c (length prow)) as [Hlt|Hge].
  - rewrite lookup_app_l by (rewrite length_take; lia).
    rewrite lookup_take_lt by done.
    destruct (lookup_lt_is_Some_2 prow c Hlt) as [v ->]. done.
  - rewrite lookup_app_r by (rewrite length_take; lia).
    rewrite (lookup_ge_None_2 prow c) by done. simpl.
    apply lookup_replicate_2. rewrite length_take. lia.
Qed.

Lemma seed_spec_rectangular rows cols persisted :
  rectangular rows cols (seed_spec rows cols persisted).
Proof.
  unfold rectangular, seed_spec. split.
  - rewrite length_app, length_fmap, length_take, length_replicate. lia.
  - apply Forall_app. split.
    + apply Forall_fmap, Forall_forall. intros prow _. simpl.
      apply seed_row_length.
    + apply Forall_replicate, length_replicate.
Qed.

Lemma seed_spec_cell rows cols persisted (r c : nat) :
  (r < rows)%nat -> (c < cols)%nat ->
  cell (seed_spec rows cols persisted) r c
  = Some (default FREE (cell persisted r c)).
Proof.
  intros Hr Hc. unfold cell, seed_spec.
  destruct (Nat.lt_ge_cases r (length persisted)) as [Hlt|Hge].
  - rewrite lookup_app_l by (rewrite length_fmap, length_take; lia).
    rewrite list_lookup_fmap, lookup_take_lt by done.
    destruct (lookup_lt_is_Some_2 persisted r Hlt) as [prow ->]. simpl.
    by apply seed_row_lookup.
  - rewrite lookup_app_r by (rewrite length_fmap, length_take; lia).
    rewrite (lookup_ge_None_2 persisted r) by done. simpl.
    rewrite length_fmap, length_take.
    rewrite (lookup_replicate_2 _ (replicate cols FREE)) by lia. simpl.
    by apply lookup_replicate_2.
Qed.

(** A persisted grid at least as large as the request is cut down. *)
Lemma seed_spec_larger rows cols persisted :
  (rows <= length persisted)%nat ->
  Forall (fun prow => (cols <= length prow)%nat) persisted ->
  seed_spec rows cols persisted = take cols <$> take rows persisted.
Proof.
  intros Hr Hc. unfold seed_spec.
  replace (rows - length persisted)%nat with 0%nat by lia.
  simpl. rewrite app_nil_r.
  apply Forall_fmap_ext_1.
  eapply Forall_impl; [by apply Forall_take|].
  intros prow Hlen. simpl in *. unfold seed_row.
  replace (cols - length prow)%nat with 0%nat by lia.
  simpl. by rewrite app_nil_r.
Qed.

(** A persisted grid no larger than the request is padded with FREE. *)
Lemma seed_spec_smaller rows cols persisted :
  (length persisted <= rows)%nat ->
  Forall (fun prow => (length prow <= cols)%nat) persisted ->
  seed_spec rows cols persisted
  = ((fun prow => prow ++ replicate (cols - length prow)%nat FREE)
       <$> persisted)
    ++ replicate (rows - length persisted)%nat (replicate cols FREE).
Proof.
  intros Hr Hc. unfold seed_spec. rewrite take_ge by done. f_equal.
  apply Forall_fmap_ext_1.
  eapply Forall_impl; [done|].
  intros prow Hlen. simpl in *. unfold seed_row. by rewrite take_ge.
Qed.

(** ** The cell cycle *)

(** C1: on each of FREE, OBSTACLE and HOME the click handler's lookup is
    defined and gives the cyclic successor (FREE to OBSTACLE, OBSTACLE to
    HOME, HOME to FREE); three applications lead back to the starting
    state, one or two do not. *)
Theorem next_state_cycle :
  next_state FREE = Ok OBSTACLE
  /\ next_state OBSTACLE = Ok HOME
  /\ next_state HOME = Ok FREE
  /\ forall s, is_state s ->
       (exists s', next_state s = Ok s' /\ is_state s' /\ s' = (s + 1) mod 3)
       /\ next_state_iter 3 s = Ok s
       /\ next_state_iter 1 s <> Ok s
       /\ next_state_iter 2 s <> Ok s.
Proof.
  split; [reflexivity|]. split; [reflexivity|]. split; [reflexivity|].
  intros s Hs. split.
  - destruct Hs as [-> | [-> | ->]]; eexists; (split; [reflexivity|]);
      (split; [|reflexivity]); unfold is_state, FREE, OBSTACLE, HOME; lia.
  - by destruct Hs as [-> | [-> | ->]].
Qed.

(** A closed instance of [next_state_cycle] at OBSTACLE. *)
Lemma next_state_cycle_witness :
  is_state OBSTACLE
  /\ next_state_iter 3 OBSTACLE = Ok OBSTACLE.
Proof.
  assert (is_state OBSTACLE) as Hs by (right; left; reflexivity).
  split; [exact Hs|].
  destruct next_state_cycle as (_ & _ & _ & Hall).
  exact (proj1 (proj2 (Hall OBSTACLE Hs))).
Defined.

(** ** Seeding *)

(** C2: for [rows >= 0] and [cols >= 0], [_seed_grid] returns a
    rows-by-cols rectangular grid whose cell (r, c) is the persisted
    value at (r, c) where the persisted grid has one, and FREE elsewhere.
    In particular a 3x3 request over a persisted 5x5 grid keeps its
    top-left 3x3 block, and a 5x5 request over a persisted 3x3 grid keeps
    it and fills the rest with FREE. *)
Theorem seed_grid_clips (rows cols : Z) (persisted : list (list Z)) :
  0 <= rows -> 0 <= cols ->
  exists g : Grid,
    _seed_grid rows cols persisted = Ok g
    /\ rectangular (Z.to_nat rows) (Z.to_nat cols) g
    /\ (forall r c : nat, Z.of_nat r < rows -> Z.of_nat c < cols ->
          cell g r c = Some (default FREE (cell persisted r c)))
    /\ (rows = 3 -> cols = 3 -> rectangular 5 5 persisted ->
          g = take 3 <$> take 3 persisted)
    /\ (rows = 5 -> cols = 5 -> rectangular 3 3 persisted ->
          g = ((fun prow => prow ++ [FREE; FREE]) <$> persisted)
              ++ [replicate 5 FREE; replicate 5 FREE]).
Proof.
  intros Hrows Hcols. eexists. split; [apply seed_grid_refines|].
  split; [apply seed_spec_rectangular|].
  split; [|split].
  - intros r c Hr Hc. apply seed_spec_cell; lia.
  - intros -> -> [Hlen Hall]. apply seed_spec_larger.
    + rewrite Hlen. simpl. lia.
    + eapply Forall_impl; [done|]. intros prow ->. simpl. lia.
  - intros -> -> [Hlen Hall]. rewrite seed_spec_smaller.
    + rewrite Hlen. f_equal. apply Forall_fmap_ext_1.
      eapply Forall_impl; [done|]. by intros prow ->.
    + rewrite Hlen. simpl. lia.
    + eapply Forall_impl; [done|]. intros prow ->. simpl. lia.
Qed.

(** [seed_grid_clips] on a persisted 5x5 grid and a 3x3 request. *)
Lemma seed_grid_clips_witness :
  exists g : Grid,
    _seed_grid 3 3
      [[1;2;0;1;2]; [0;1;2;0;1]; [2;0;1;2;0]; [1;1;1;1;1]; [2;2;2;2;2]]
    = Ok g
    /\ g = [[1;2;0]; [0;1;2]; [2;0;1]].
Proof.
  destruct (seed_grid_clips 3 3
    [[1;2;0;1;2]; [0;1;2;0;1]; [2;0;1;2;0]; [1;1;1;1;1]; [2;2;2;2;2]])
    as (g & Hg & _ & _ & H33 & _); [lia | lia |].
  exists g. split; [exact Hg|].
  apply H33; [reflexivity | reflexivity |].
  split; [reflexivity|]. repeat constructor.
Defined.

(** ** The click handler *)

Lemma cell_insert_eq (g : Grid) (r c : nat) (row : list Z) (v : Z) :
  g !! r = Some row -> (c < length row)%nat ->
  cell (<[r := <[c := v]> row]> g) r c = Some v.
Proof.
  intros Hrow Hc. unfold cell.
  rewrite list_lookup_insert_eq by (by eapply lookup_lt_Some). simpl.
  by apply list_lookup_insert_eq.
Qed.

Lemma cell_insert_ne (g : Grid) (r c r' c' : nat) (row : list Z) (v : Z) :
  g !! r = Some row -> (r', c') <> (r, c) ->
  cell (<[r := <[c := v]> row]> g) r' c' = cell g r' c'.
Proof.
  intros Hrow Hne. unfold cell.
  destruct (decide (r' = r)) as [->|Hr].
  - rewrite list_lookup_insert_eq by (by eapply lookup_lt_Some).
    rewrite Hrow. simpl. apply list_lookup_insert_ne. congruence.
  - by rewrite list_lookup_insert_ne.
Qed.

Lemma cell_inv (g : Grid) (r c : nat) (v : Z) :
  cell g r c = Some v -> exists row, g !! r = Some row /\ row !! c = Some v.
Proof.
  unfold cell. destruct (g !! r) as [row|]; [|done]. simpl. eauto.
Qed.

(** What a left click on cell [(r, c)] does to a grid. *)
Lemma handle_mouse_click (x y flags : Z) (state : EditorState)
    (r c : nat) (row : list Z) (v : Z) :
  get_grid_cell_from_rectified (overlay state)
    (x + offset_x state) (y + offset_y state)
  = mkCellInfo true (Z.of_nat r) (Z.of_nat c) ->
  grid state !! r = Some row -> row !! c = Some v ->
  _handle_mouse EVENT_LBUTTONDOWN x y flags state
  = v' ← next_state v;
    Ok (set_grid state (<[r := <[c := v']> row]> (grid state))).
Proof.
  intros Hinfo Hrow Hv. unfold _handle_mouse, _rectified_to_grid_cell.
  rewrite Z.eqb_refl, Hinfo. simpl.
  rewrite (getitem_nat _ _ _ Hrow). simpl.
  rewrite (getitem_nat _ _ _ Hv). simpl.
  destruct (next_state v) as [v'|e]; [|done]. simpl.
  rewrite (set_cell_nat _ _ _ _ row Hrow) by (by eapply lookup_lt_Some).
  done.
Qed.

Lemma norm_index_lt (len : nat) (i : Z) (j : nat) :
  Py.norm_index (Z.of_nat len) i = Some j -> (j < len)%nat.
Proof.
  unfold Py.norm_index.
  destruct (Z.leb_spec 0 (if i <? 0 then i + Z.of_nat len else i));
    [|done].
  destruct (Z.ltb_spec (if i <? 0 then i + Z.of_nat len else i)
              (Z.of_nat len)); [|done].
  simpl. intros [= <-]. lia.
Qed.

Lemma getitem_Ok {A} (l : list A) (i : Z) (a : A) :
  Py.getitem l i = Ok a -> exists j : nat, l !! j = Some a.
Proof.
  unfold Py.getitem. destruct (Py.norm_index _ i) as [j|]; [|done].
  destruct (l !! j) as [b|] eqn:Hj; [|done]. intros [= <-]. eauto.
Qed.

Lemma setitem_Ok {A} (l l' : list A) (i : Z) (a : A) :
  Py.setitem l i a = Ok l' ->
  exists j : nat, (j < length l)%nat /\ l' = <[j := a]> l.
Proof.
  unfold Py.setitem. destruct (Py.norm_index _ i) as [j|] eqn:Hj; [|done].
  intros [= <-]. exists j. split; [by eapply norm_index_lt|done].
Qed.

Lemma set_cell_Ok (g g' : Grid) (r c v : Z) :
  set_cell g r c v = Ok g' ->
  exists (i j : nat) (row : list Z),
    g !! i = Some row /\ (j < length row)%nat
    /\ g' = <[i := <[j := v]> row]> g.
Proof.
  unfold set_cell. unfold Py.getitem.
  destruct (Py.norm_index _ r) as [i|] eqn:Hi; [|done].
  destruct (g !! i) as [row|] eqn:Hrow; [|done]. simpl.
  destruct (Py.setitem row c v) as [row'|] eqn:Hset; [|done]. simpl.
  unfold Py.setitem. rewrite Hi. intros [= <-].
  apply setitem_Ok in Hset as (j & Hj & ->).
  exists i, j, row. done.
Qed.

Lemma next_state_Ok (current v' : Z) :
  next_state current = Ok v' -> is_state current /\ is_state v'.
Proof.
  unfold next_state, Py.dict_getitem, next_state_table.
  destruct (_ !! current) as [w|] eqn:Hw; [|done].
  intros [= ->]. unfold is_state.
  repeat (apply lookup_insert_Some in Hw as [[<- <-]|[_ Hw]];
          [unfold FREE, OBSTACLE, HOME; lia|]).
  done.
Qed.

Lemma next_state_KeyError (current : Z) :
  ~ is_state current -> next_state current = Raise KeyError.
Proof.
  intros Hno. unfold next_state, Py.dict_getitem, next_state_table.
  rewrite !lookup_insert_ne, lookup_empty; [done|..];
    intros Heq; apply Hno; unfold is_state; rewrite <- Heq; tauto.
Qed.

Lemma next_state_total :
  next_state FREE = Ok OBSTACLE
  /\ next_state OBSTACLE = Ok HOME
  /\ next_state HOME = Ok FREE
  /\ forall s, is_state s -> exists s', next_state s = Ok s'.
Proof.
  repeat split. intros s [-> | [-> | ->]]; eexists; reflexivity.
Qed.

(** Whatever the overlay answers, the handler either raises or returns
    the state with at most one cell replaced by a state value. *)
Lemma handle_mouse_cases (event x y flags : Z) (state state' : EditorState) :
  _handle_mouse event x y flags state = Ok state' ->
  state' = state
  \/ exists (r c : nat) (row : list Z) (v' : Z),
       grid state !! r = Some row /\ (c < length row)%nat /\ is_state v'
       /\ state' = set_grid state (<[r := <[c := v']> row]> (grid state)).
Proof.
  unfold _handle_mouse.
  destruct (negb (event =? EVENT_LBUTTONDOWN)); [intros [= <-]; by left|].
  destruct (_rectified_to_grid_cell x y state) as [[row col]|];
    [|intros [= <-]; by left].
  destruct (Py.getitem (grid state) row) as [grow|]; [|done]. simpl.
  destruct (Py.getitem grow col) as [current|]; [|done]. simpl.
  destruct (next_state current) as [v'|] eqn:Hnext; [|done]. simpl.
  destruct (set_cell _ row col v') as [g'|] eqn:Hset; [|done]. simpl.
  intros [= <-]. right.
  apply set_cell_Ok in Hset as (i & j & irow & Hi & Hj & ->).
  apply next_state_Ok in Hnext as [_ Hv'].
  exists i, j, irow, v'. done.
Qed.

Lemma insert_cell_rectangular (g : Grid) (nrows ncols r c : nat) row v :
  g !! r = Some row ->
  rectangular nrows ncols g ->
  rectangular nrows ncols (<[r := <[c := v]> row]> g).
Proof.
  intros Hrow [Hlen Hall]. split; [by rewrite length_insert|].
  apply Forall_insert; [done|]. rewrite length_insert.
  by eapply (Forall_lookup_1 _ _ _ _ Hall).
Qed.

Lemma insert_cell_valid (g : Grid) (r c : nat) row v :
  g !! r = Some row -> is_state v ->
  cells_valid g -> cells_valid (<[r := <[c := v]> row]> g).
Proof.
  intros Hrow Hv Hall. apply Forall_insert; [done|].
  apply Forall_insert; [|done].
  by eapply (Forall_lookup_1 _ _ _ _ Hall).
Qed.

(** The handler keeps the shape of the grid and the validity of its
    cells, for every overlay answer. *)
Lemma handle_mouse_preserves (event x y flags : Z) (state state' : EditorState)
    (nrows ncols : nat) :
  _handle_mouse event x y flags state = Ok state' ->
  (rectangular nrows ncols (grid state)
   -> rectangular nrows ncols (grid state'))
  /\ (cells_valid (grid state) -> cells_valid (grid state')).
Proof.
  intros [->|(r & c & row & v' & Hrow & Hc & Hv' & ->)]%handle_mouse_cases;
    [done|].
  simpl. split; intros Hinv.
  - by apply insert_cell_rectangular.
  - by apply insert_cell_valid.
Qed.

Lemma after_mouse_events_preserves (evs : list MouseEvent)
    (state : EditorState) (nrows ncols : nat) :
  (rectangular nrows ncols (grid state)
   -> rectangular nrows ncols (grid (after_mouse_events state evs)))
  /\ (cells_valid (grid state)
      -> cells_valid (grid (after_mouse_events state evs))).
Proof.
  revert state. induction evs as [|ev evs IH]; intros state; [done|].
  simpl. destruct (IH (after_mouse state ev)) as [IHr IHv].
  unfold after_mouse in *.
  destruct (_handle_mouse _ _ _ _ state) as [state'|] eqn:Hh; [|done].
  destruct (handle_mouse_preserves _ _ _ _ _ _ nrows ncols Hh). split; auto.
Qed.

Lemma seed_spec_valid (nrows ncols : nat) (persisted : list (list Z)) :
  (forall (r c : nat) (v : Z), (r < nrows)%nat -> (c < ncols)%nat ->
     cell persisted r c = Some v -> is_state v) ->
  cells_valid (seed_spec nrows ncols persisted).
Proof.
  intros Hp. destruct (seed_spec_rectangular nrows ncols persisted)
    as [Hlen Hrows].
  apply Forall_lookup_2. intros r row Hr.
  apply Forall_lookup_2. intros c v Hv.
  assert (r < nrows)%nat as Hrlt.
  { rewrite <- Hlen. by eapply lookup_lt_Some. }
  assert (c < ncols)%nat as Hclt.
  { rewrite <- (Forall_lookup_1 _ _ _ _ Hrows Hr). by eapply lookup_lt_Some. }
  pose proof (seed_spec_cell nrows ncols persisted r c Hrlt Hclt) as Hcell.
  unfold cell at 1 in Hcell. rewrite Hr in Hcell. simpl in Hcell.
  rewrite Hv in Hcell. injection Hcell as ->.
  destruct (cell persisted r c) as [w|] eqn:Hw; simpl.
  - by eapply Hp.
  - by left.
Qed.

(** A left click that the overlay maps to the in-bounds cell (0, 0) of
    the grid [[7]]: the handler raises, no cell is replaced. *)
Lemma handle_mouse_no_successor :
  let ov := mkGPSOverlay 1 1 (fun _ _ => mkCellInfo true 0 0)
              (fun img => Ok (img, mkOffsetInfo 0 0)) in
  let state := mkEditorState [[7]] ov 1 1 0 0 4 4 ["grid.json"%string] in
  in_bounds (get_grid_cell_from_rectified (overlay state)
               (5 + offset_x state) (5 + offset_y state)) = true
  /\ ~ exists state' : EditorState,
         _handle_mouse EVENT_LBUTTONDOWN 5 5 0 state = Ok state'.
Proof.
  split; [reflexivity|]. intros [state' Hok]. discriminate Hok.
Qed.

(** C5, as the code has it: a mouse event that is not a left-button
    press, or whose position (with the stored offsets added) the overlay
    reports out of bounds, leaves the state as it is; a left press that
    the overlay maps to the in-bounds cell (r, c) of the grid replaces
    that cell by its cyclic successor when it holds one of the three
    states, and changes nothing else: every other cell, the row lengths
    and the other fields of the state stay; when the cell holds another
    integer the handler raises KeyError. *)
Theorem handle_mouse_frame (event x y flags : Z) (state : EditorState) :
  let info := get_grid_cell_from_rectified (overlay state)
                (x + offset_x state) (y + offset_y state) in
  (event <> EVENT_LBUTTONDOWN \/ in_bounds info = false ->
     _handle_mouse event x y flags state = Ok state)
  /\ (forall (r c : nat) (v : Z),
        event = EVENT_LBUTTONDOWN ->
        info = mkCellInfo true (Z.of_nat r) (Z.of_nat c) ->
        cell (grid state) r c = Some v ->
        (is_state v ->
         exists (v' : Z) (state' : EditorState),
           next_state v = Ok v'
           /\ _handle_mouse event x y flags state = Ok state'
           /\ cell (grid state') r c = Some v'
           /\ (forall r' c' : nat, (r', c') <> (r, c) ->
                 cell (grid state') r' c' = cell (grid state) r' c')
           /\ length <$> grid state' = length <$> grid state
           /\ state' = set_grid state (grid state'))
        /\ (~ is_state v ->
            _handle_mouse event x y flags state = Raise KeyError)).
Proof.
  intros info. split.
  - intros Hno. unfold _handle_mouse, _rectified_to_grid_cell. fold info.
    destruct (Z.eqb_spec event EVENT_LBUTTONDOWN) as [Heq|Hne]; [|done].
    destruct Hno as [Hno|Hout]; [done|]. by rewrite Hout.
  - intros r c v -> Hinfo Hcell.
    apply cell_inv in Hcell as (row & Hrow & Hc).
    pose proof (handle_mouse_click x y flags state r c row v Hinfo Hrow Hc)
      as Hclick.
    split; intros Hv.
    + destruct (proj2 (proj2 (proj2 next_state_total)) v Hv) as (v' & Hnext).
      rewrite Hnext in Hclick. simpl in Hclick.
      exists v', (set_grid state (<[r := <[c := v']> row]> (grid state))).
      split; [done|]. split; [done|]. simpl.
      split; [apply cell_insert_eq; [done|by eapply lookup_lt_Some]|].
      split; [intros r' c' Hne; by apply cell_insert_ne|].
      split; [|done].
      rewrite list_fmap_insert, length_insert. apply list_insert_id.
      by rewrite list_lookup_fmap, Hrow.
    + by rewrite Hclick, next_state_KeyError.
Qed.

(** [handle_mouse_frame] on a 2x2 grid: a left click that the overlay
    maps to cell (0, 1) turns that OBSTACLE cell into HOME. *)
Lemma handle_mouse_frame_witness :
  let ov := mkGPSOverlay 2 2 (fun _ _ => mkCellInfo true 0 1)
              (fun img => Ok (img, mkOffsetInfo 0 0)) in
  let state := mkEditorState [[0; 1]; [2; 0]] ov 2 2 0 0 4 4 ["grid.json"%string] in
  exists state' : EditorState,
    _handle_mouse EVENT_LBUTTONDOWN 3 1 0 state = Ok state'
    /\ grid state' = [[0; 2]; [2; 0]].
Proof.
  intros ov state.
  destruct (handle_mouse_frame EVENT_LBUTTONDOWN 3 1 0 state) as [_ Hin].
  destruct (Hin 0%nat 1%nat 1 eq_refl eq_refl eq_refl) as [Hstate _].
  destruct Hstate as (v' & state' & Hnext & Hh & _ & _ & _ & _).
  - right; left; reflexivity.
  - exists state'. split; [exact Hh|].
    injection Hh as <-. reflexivity.
Defined.

(** C10: the handler's lookup is defined on 0, 1 and 2 only; a left
    click on an in-bounds cell holding any other integer raises KeyError
    and the grid is not updated; and [_seed_grid] puts any persisted
    integer into the grid unchecked, so such cells do occur. *)
Theorem handle_mouse_invalid_cell :
  (forall v : Z, next_state v = Raise KeyError <-> ~ is_state v)
  /\ (forall (x y flags : Z) (state : EditorState) (r c : nat) (v : Z),
        get_grid_cell_from_rectified (overlay state)
          (x + offset_x state) (y + offset_y state)
        = mkCellInfo true (Z.of_nat r) (Z.of_nat c) ->
        cell (grid state) r c = Some v -> ~ is_state v ->
        _handle_mouse EVENT_LBUTTONDOWN x y flags state = Raise KeyError
        /\ after_mouse state (mkMouseEvent EVENT_LBUTTONDOWN x y flags)
           = state)
  /\ (forall (v nrows ncols : Z), 0 < nrows -> 0 < ncols ->
        exists g : Grid,
          _seed_grid nrows ncols [[v]] = Ok g /\ cell g 0 0 = Some v).
Proof.
  split; [|split].
  - intros v. split.
    + intros Hraise Hv.
      destruct (proj2 (proj2 (proj2 next_state_total)) v Hv) as (v' & Hv').
      congruence.
    + apply next_state_KeyError.
  - intros x y flags state r c v Hinfo Hcell Hv.
    apply cell_inv in Hcell as (row & Hrow & Hc).
    assert (_handle_mouse EVENT_LBUTTONDOWN x y flags state = Raise KeyError)
      as Hraise.
    { rewrite (handle_mouse_click x y flags state r c row v Hinfo Hrow Hc).
      by rewrite next_state_KeyError. }
    split; [done|]. unfold after_mouse. simpl. by rewrite Hraise.
  - intros v nrows ncols Hr Hc. eexists. split; [apply seed_grid_refines|].
    rewrite seed_spec_cell by lia. done.
Qed.

(** [handle_mouse_invalid_cell] on a grid seeded from the persisted
    array [[7]]: the click raises KeyError. *)
Lemma handle_mouse_invalid_cell_witness :
  let ov := mkGPSOverlay 1 1 (fun _ _ => mkCellInfo true 0 0)
              (fun img => Ok (img, mkOffsetInfo 0 0)) in
  _seed_grid 1 1 [[7]] = Ok [[7]]
  /\ _handle_mouse EVENT_LBUTTONDOWN 5 5 0
       (mkEditorState [[7]] ov 1 1 0 0 4 4 ["grid.json"%string])
     = Raise KeyError.
Proof.
  intros ov. split; [reflexivity|].
  destruct handle_mouse_invalid_cell as (_ & Hclick & _).
  refine (proj1 (Hclick 5 5 0 (mkEditorState [[7]] ov 1 1 0 0 4 4
                                 ["grid.json"%string]) 0%nat 0%nat 7 _ _ _)).
  - reflexivity.
  - reflexivity.
  - unfold is_state, FREE, OBSTACLE, HOME. lia.
Defined.

(** ** The JSON text of a grid reads back as the grid *)

Module JsonFacts.
Import Json.

(** The tokens of a written row and of a written grid. *)
Definition sep_tokens {A} (item : A -> list token) (l : list A)
  : list token :=
  match l with
  | [] => []
  | x :: l' => item x ++ flat_map (fun y => COMMA :: item y) l'
  end.

Definition row_tokens (row : list Z) : list token :=
  LBRACKET :: sep_tokens (fun z => [INT z]) row ++ [RBRACKET].

Definition grid_tokens (g : list (list Z)) : list token :=
  LBRACKET :: sep_tokens row_tokens g ++ [RBRACKET].

Lemma lex_uint (d acc : Decimal.uint) (neg : bool) (rest : list ascii) :
  lex (Some (neg, acc)) (uint_chars d ++ rest)
  = lex (Some (neg, Decimal.revapp d acc)) rest.
Proof.
  revert acc. induction d; intros acc; simpl; try apply IHd. done.
Qed.

Lemma lex_uint_start (d : Decimal.uint) (rest : list ascii) :
  d <> Decimal.Nil ->
  lex None (uint_chars d ++ rest)
  = lex (Some (false, Decimal.Nil)) (uint_chars d ++ rest).
Proof. destruct d; done. Qed.

Definition closes (c : ascii) : Prop := c = ","%char \/ c = "]"%char.

Lemma lex_signed (neg : bool) (d : Decimal.uint) (c : ascii) rest :
  d <> Decimal.Nil -> closes c ->
  lex (Some (neg, Decimal.Nil)) (uint_chars d ++ c :: rest)
  = INT (Z.of_int (if neg then Decimal.Neg d else Decimal.Pos d))
    :: punct c ++ lex None rest.
Proof.
  intros Hd Hc. rewrite lex_uint.
  change (Decimal.revapp d Decimal.Nil) with (Decimal.rev d).
  assert (lex (Some (neg, Decimal.rev d)) (c :: rest)
          = flush (Some (neg, Decimal.rev d)) ++ punct c ++ lex None rest)
    as ->.
  { destruct Hc as [-> | ->]; reflexivity. }
  unfold flush. destruct (Decimal.rev d) eqn:Hrev;
    [by apply DecimalFacts.rev_nil_inv in Hrev|..];
    rewrite <- Hrev, DecimalFacts.rev_rev; by destruct neg.
Qed.

Lemma lex_int (z : Z) (c : ascii) (rest : list ascii) :
  closes c ->
  lex None (int_chars z ++ c :: rest) = INT z :: punct c ++ lex None rest.
Proof.
  intros Hc. rewrite <- (DecimalZ.of_to z) at 2. unfold int_chars.
  assert (match Z.to_int z with
          | Decimal.Pos d | Decimal.Neg d => d <> Decimal.Nil
          end) as Hnil.
  { destruct z; simpl; try done; apply DecimalPos.Unsigned.to_uint_nonnil. }
  destruct (Z.to_int z) as [d|d].
  - rewrite lex_uint_start by done. by apply (lex_signed false).
  - by apply (lex_signed true).
Qed.

Definition starts_closed (k : list ascii) : Prop :=
  match k with
  | c :: _ => closes c
  | [] => False
  end.

Lemma lex_int_then (z : Z) (k : list ascii) :
  starts_closed k -> lex None (int_chars z ++ k) = INT z :: lex None k.
Proof.
  destruct k as [|c k]; [done|]. intros Hc. simpl in Hc.
  rewrite lex_int by done. by destruct Hc as [-> | ->].
Qed.

Lemma int_tail_closed (l : list Z) (rest : list ascii) :
  starts_closed
    (flat_map (fun y => ","%char :: " "%char :: int_chars y) l
     ++ "]"%char :: rest).
Proof. destruct l; [by right|by left]. Qed.

Lemma lex_int_tail (l : list Z) (rest : list ascii) :
  lex None (flat_map (fun y => ","%char :: " "%char :: int_chars y) l
            ++ "]"%char :: rest)
  = flat_map (fun y => [COMMA; INT y]) l ++ RBRACKET :: lex None rest.
Proof.
  induction l as [|y l IH]; [done|].
  cbn [flat_map]. rewrite <- !app_assoc, <- !app_comm_cons.
  change (lex None (","%char :: " "%char :: ?k))
    with (COMMA :: lex None k).
  rewrite lex_int_then by apply int_tail_closed. by rewrite IH.
Qed.

Lemma lex_row (row : list Z) (rest : list ascii) :
  lex None (row_chars row ++ rest) = row_tokens row ++ lex None rest.
Proof.
  unfold row_chars, row_tokens. destruct row as [|z l]; [done|].
  cbn [sep_by sep_tokens]. rewrite <- !app_comm_cons, <- !app_assoc.
  change (lex None ("["%char :: ?k)) with (LBRACKET :: lex None k).
  change ([RBRACKET] ++ ?k) with (RBRACKET :: k).
  change (["]"%char] ++ ?k) with ("]"%char :: k).
  rewrite lex_int_then by apply int_tail_closed.
  by rewrite lex_int_tail.
Qed.

Lemma lex_row_tail (g : list (list Z)) (rest : list ascii) :
  lex None (flat_map (fun y => ","%char :: " "%char :: row_chars y) g
            ++ rest)
  = flat_map (fun y => COMMA :: row_tokens y) g ++ lex None rest.
Proof.
  induction g as [|row g IH]; [done|].
  cbn [flat_map]. rewrite <- !app_assoc, <- !app_comm_cons.
  change (lex None (","%char :: " "%char :: ?k))
    with (COMMA :: lex None k).
  by rewrite lex_row, IH.
Qed.

Lemma lex_grid (g : list (list Z)) : lex None (grid_chars g) = grid_tokens g.
Proof.
  unfold grid_chars, grid_tokens. destruct g as [|row g]; [done|].
  cbn [sep_by sep_tokens].
  change (lex None ("["%char :: ?k)) with (LBRACKET :: lex None k).
  rewrite <- !app_assoc. by rewrite lex_row, lex_row_tail.
Qed.

Lemma run_app (ps : parser) (ts1 ts2 : list token) :
  run ps (ts1 ++ ts2) = ps' ← run ps ts1; run ps' ts2.
Proof.
  revert ps. induction ts1 as [|t ts1 IH]; intros ps; [done|].
  simpl. destruct (step ps t) as [ps'|]; [apply IH|done].
Qed.

Lemma run_int_tail (l : list Z) rs r :
  run (mkParser AfterInt rs r) (flat_map (fun y => [COMMA; INT y]) l)
  = Some (mkParser AfterInt rs (reverse l ++ r)).
Proof.
  revert r. induction l as [|y l IH]; intros r; [done|].
  cbn [flat_map]. rewrite run_app. simpl. rewrite IH.
  by rewrite reverse_cons, <- app_assoc.
Qed.

Lemma run_row (st : pstate) (row : list Z) rs r :
  st = OuterOpen \/ st = OuterComma ->
  run (mkParser st rs r) (row_tokens row)
  = Some (mkParser AfterRow (row :: rs) []).
Proof.
  intros Hst. unfold row_tokens. destruct row as [|z l].
  - by destruct Hst as [-> | ->].
  - cbn [sep_tokens].
    assert (run (mkParser st rs r)
              (LBRACKET :: ([INT z] ++ flat_map (fun y => [COMMA; INT y]) l)
                           ++ [RBRACKET])
            = run (mkParser AfterInt rs [z])
                (flat_map (fun y => [COMMA; INT y]) l ++ [RBRACKET])) as ->.
    { by destruct Hst as [-> | ->]. }
    rewrite run_app, run_int_tail. simpl.
    by rewrite reverse_app, reverse_involutive.
Qed.

Lemma run_row_tail (g : list (list Z)) rs :
  run (mkParser AfterRow rs [])
    (flat_map (fun y => COMMA :: row_tokens y) g)
  = Some (mkParser AfterRow (reverse g ++ rs) []).
Proof.
  revert rs. induction g as [|row g IH]; intros rs; [done|].
  cbn [flat_map]. rewrite run_app.
  change (run (mkParser AfterRow rs []) (COMMA :: row_tokens row))
    with (run (mkParser OuterComma rs []) (row_tokens row)).
  rewrite run_row by (by right). simpl. rewrite IH.
  by rewrite reverse_cons, <- app_assoc.
Qed.

Lemma parse_grid (g : list (list Z)) : parse (grid_tokens g) = Some g.
Proof.
  unfold parse, grid_tokens. destruct g as [|row g]; [done|].
  cbn [sep_tokens].
  change (run (mkParser Start [] []) (LBRACKET :: ?k))
    with (run (mkParser OuterOpen [] []) k).
  rewrite <- app_assoc, run_app.
  rewrite run_row by (by left). simpl.
  rewrite run_app, run_row_tail. simpl.
  by rewrite reverse_app, reverse_involutive.
Qed.

Lemma loads_dumps (g : list (list Z)) : loads (dumps g) = Some g.
Proof.
  unfold loads, dumps.
  by rewrite list_ascii_of_string_of_list_ascii, lex_grid, parse_grid.
Qed.

End JsonFacts.

(** Texts written and read. *)
Example json_example_1 : Json.dumps [[0; 1; 2]; [-12; 305]; []] = "[[0, 1, 2], [-12, 305], []]"%string.
Proof. vm_compute. reflexivity. Qed.
Example json_example_2 : Json.loads "[[0, 1, 2], [-12, 305], []]" = Some [[0; 1; 2]; [-12; 305]; []].
Proof. vm_compute. reflexivity. Qed.
Example json_example_3 : Json.loads " [ [0,1,2] ,
 [ 7 ]] " = Some [[0; 1; 2]; [7]].
Proof. vm_compute. reflexivity. Qed.
Example json_example_4 : Json.loads "[[0, 1, 2], [-12, 305], [],]" = None.
Proof. vm_compute. reflexivity. Qed.
Example json_example_5 : Json.loads "[]" = Some [].
Proof. vm_compute. reflexivity. Qed.
Example json_example_6 : Json.loads "[[1 2]]" = None.
Proof. vm_compute. reflexivity. Qed.

(** ** The percentage lines *)

Example percent_example_1 : TestLayoutApi.percent 6 9 = Some "66.7"%string.
Proof. vm_compute. reflexivity. Qed.
Example percent_example_2 : TestLayoutApi.percent 2 9 = Some "22.2"%string.
Proof. vm_compute. reflexivity. Qed.
Example percent_example_3 : TestLayoutApi.percent 1 9 = Some "11.1"%string.
Proof. vm_compute. reflexivity. Qed.
Example percent_example_4 : TestLayoutApi.percent 1 8 = Some "12.5"%string.
Proof. vm_compute. reflexivity. Qed.
Example percent_example_5 : TestLayoutApi.percent 1 16 = Some "6.2"%string.
Proof. vm_compute. reflexivity. Qed.
Example percent_example_6 : TestLayoutApi.percent 9 9 = Some "100.0"%string.
Proof. vm_compute. reflexivity. Qed.
Example percent_example_7 : TestLayoutApi.percent 0 9 = Some "0.0"%string.
Proof. vm_compute. reflexivity. Qed.
Example percent_example_8 : TestLayoutApi.percent 3 16 = Some "18.8"%string.
Proof. vm_compute. reflexivity. Qed.

(** ** The grid codec *)

(** C4: whenever [save_grid] writes a grid to a path, [load_grid] then
    reads that same grid back from the path; and [save_grid] does write
    when the directory of the path exists. *)
Theorem save_then_load (g : Grid) (p : path) (w : World) :
  (forall w' : World,
     save_grid g p w = (Ok tt, w') -> load_grid p w' = (Ok g, w'))
  /\ (dir_exists (parent p) w = true ->
      exists w' : World, save_grid g p w = (Ok tt, w')).
Proof.
  unfold save_grid. split.
  - intros w'. destruct (dir_exists (parent p) w); [|done].
    intros [= <-]. unfold load_grid. simpl. rewrite lookup_insert_eq.
    by rewrite JsonFacts.loads_dumps.
  - intros ->. by eexists.
Qed.

(** [save_then_load] on a 2x3 grid written to [grid.json] in the
    working directory. *)
Lemma save_then_load_witness :
  exists w' : World,
    save_grid [[0; 1; 2]; [2; 0; 1]] ["grid.json"%string]
      (mkWorld ∅ ∅ None [])
    = (Ok tt, w')
    /\ load_grid ["grid.json"%string] w' = (Ok [[0; 1; 2]; [2; 0; 1]], w').
Proof.
  destruct (save_then_load [[0; 1; 2]; [2; 0; 1]] ["grid.json"%string]
              (mkWorld ∅ ∅ None [])) as [Hback Hwrites].
  destruct (Hwrites eq_refl) as [w' Hsave].
  exists w'. split; [exact Hsave|]. exact (Hback w' Hsave).
Defined.

(** ** The query API *)

(** C6: when there is no grid file at the path, [load_grid] gives the
    empty grid and each query function gives its empty result (no rows,
    the empty string, all-zero statistics); none of them raises, and the
    world is left as it was. *)
Theorem missing_file_is_empty (p : path) (w : World)
    (symbols : gmap string string) (cell_separator : string) :
  w_files w !! p = None ->
  load_grid p w = (Ok [], w)
  /\ LayoutApi.get_map_json p w = (Ok [], w)
  /\ LayoutApi.get_map symbols p w = (Ok [], w)
  /\ LayoutApi.get_map_as_string symbols cell_separator p w
     = (Ok EmptyString, w)
  /\ LayoutApi.get_map_info p w = (Ok (LayoutApi.mkMapInfo 0 0 0 0 0 0), w).
Proof.
  intros Hnone.
  assert (load_grid p w = (Ok [], w)) as Hload.
  { unfold load_grid. by rewrite Hnone. }
  unfold LayoutApi.get_map_json, LayoutApi.get_map_as_string,
    LayoutApi.get_map, LayoutApi.get_map_info, mbind, io_bind.
  rewrite !Hload. done.
Qed.

(** [missing_file_is_empty] in a world without any file. *)
Lemma missing_file_is_empty_witness :
  LayoutApi.get_map_info ["grid.json"%string] (mkWorld ∅ ∅ None [])
  = (Ok (LayoutApi.mkMapInfo 0 0 0 0 0 0), mkWorld ∅ ∅ None []).
Proof.
  refine (proj2 (proj2 (proj2 (proj2
    (missing_file_is_empty ["grid.json"%string] (mkWorld ∅ ∅ None [])
       ∅ " "%string _))))).
  reflexivity.
Defined.

(** C7: on a grid file holding a 3x3 grid with 6 FREE, 2 OBSTACLE and 1
    HOME cell, [get_map_info] reports 9 cells, 6 free, 2 obstacle, 1
    home, and the percentage lines computed from them read 66.7, 22.2
    and 11.1. *)
Theorem map_info_statistics (g : Grid) (p : path) (w : World) :
  w_files w !! p = Some (FText (Json.dumps g)) ->
  rectangular 3 3 g ->
  LayoutApi.count_cells FREE g = 6 ->
  LayoutApi.count_cells OBSTACLE g = 2 ->
  LayoutApi.count_cells HOME g = 1 ->
  TestLayoutApi.test_get_map_info p w
  = (Ok (LayoutApi.mkMapInfo 3 3 9 6 2 1,
         [Some "66.7"; Some "22.2"; Some "11.1"]%string), w).
Proof.
  intros Hfile [Hlen Hrows] Hfree Hobst Hhome.
  assert (load_grid p w = (Ok g, w)) as Hload.
  { unfold load_grid. by rewrite Hfile, JsonFacts.loads_dumps. }
  unfold TestLayoutApi.test_get_map_info, LayoutApi.get_map_info,
    mbind, io_bind.
  rewrite Hload, Hfree, Hobst, Hhome, Hlen.
  destruct g as [|row g]; [done|].
  apply Forall_cons in Hrows as [-> _].
  vm_compute. reflexivity.
Qed.

(** [map_info_statistics] on a concrete grid file. *)
Lemma map_info_statistics_witness :
  TestLayoutApi.test_get_map_info ["grid.json"%string]
    (mkWorld {[ ["grid.json"%string] :=
                FText "[[0, 1, 0], [0, 2, 0], [1, 0, 0]]" ]} ∅ None [])
  = (Ok (LayoutApi.mkMapInfo 3 3 9 6 2 1,
         [Some "66.7"; Some "22.2"; Some "11.1"]%string),
     mkWorld {[ ["grid.json"%string] :=
                FText "[[0, 1, 0], [0, 2, 0], [1, 0, 0]]" ]} ∅ None []).
Proof.
  apply (map_info_statistics [[0; 1; 0]; [0; 2; 0]; [1; 0; 0]]).
  - reflexivity.
  - split; [reflexivity|]. repeat constructor.
  - reflexivity.
  - reflexivity.
  - reflexivity.
Defined.

(** ** The entry point *)

Lemma path_exists_false (p : path) (w : World) :
  w_files w !! p = None -> dir_exists p w = false ->
  path_exists p w = (Ok false, w).
Proof.
  intros Hfile Hdir. unfold path_exists. rewrite Hfile, Hdir.
  by rewrite bool_decide_eq_false_2 by (by intros [? ?]).
Qed.

(** C9: when nothing exists at [overlay/gps_overlay.json], [main] raises
    FileNotFoundError with its message and leaves the world as it was:
    the overlay is not loaded and no window, callback or file is made,
    whatever the overlay module and the input are; and [script] does not
    catch the error. *)
Theorem main_needs_calibration (DEFAULT_GRID_PATH project_root : path)
    (_draw_grid_overlay _draw_header_overlay
       : Image -> EditorState -> result Image)
    (has_loader : path -> bool) (exec_module : path -> IO OverlayModule)
    (overlay_api : OverlayModule) (polls : list Poll) (w : World) :
  let missing :=
    FileNotFoundError
      ("GPS overlay configuration not found at "
       +:+ path_str (overlay_path project_root) +:+ ". "
       +:+ "Please ensure gps_overlay.json exists in the overlay/ folder.") in
  w_files w !! overlay_path project_root = None ->
  dir_exists (overlay_path project_root) w = false ->
  main DEFAULT_GRID_PATH project_root _draw_grid_overlay
    _draw_header_overlay overlay_api polls w
  = (Raise missing, w)
  /\ forall w0 : World,
       import_api has_loader exec_module
         (project_root ++ ["overlay"; "overlay-api.py"]%string)
         "overlay_api" None w0
       = (Ok overlay_api, w) ->
       script DEFAULT_GRID_PATH project_root _draw_grid_overlay
         _draw_header_overlay has_loader exec_module polls w0
       = (Raise missing, w).
Proof.
  intros missing Hfile Hdir.
  assert (main DEFAULT_GRID_PATH project_root _draw_grid_overlay
            _draw_header_overlay overlay_api polls w
          = (Raise missing, w)) as Hmain.
  { unfold main, mbind at 1, io_bind.
    by rewrite (path_exists_false _ _ Hfile Hdir). }
  split; [exact Hmain|].
  intros w0 Himport. unfold script, mbind, io_bind.
  rewrite Himport. exact Hmain.
Qed.

(** [main_needs_calibration] in a world that has the overlay module but
    no calibration file. *)
Lemma main_needs_calibration_witness :
  exists msg : string,
    main ["grid.json"%string] [] (fun img _ => Ok img) (fun img _ => Ok img)
      (mkOverlayModule (fun _ => io_raise OverlayError))
      [mkPoll [] 113]
      (mkWorld {[ ["overlay"; "overlay-api.py"]%string := FText EmptyString ]}
         {[ ["overlay"%string] ]} None [])
    = (Raise (FileNotFoundError msg),
       mkWorld {[ ["overlay"; "overlay-api.py"]%string := FText EmptyString ]}
         {[ ["overlay"%string] ]} None []).
Proof.
  eexists.
  refine (proj1 (main_needs_calibration ["grid.json"%string] []
                   (fun img _ => Ok img) (fun img _ => Ok img)
                   (fun _ => true) (fun _ => io_raise OverlayError)
                   (mkOverlayModule (fun _ => io_raise OverlayError))
                   [mkPoll [] 113]
                   (mkWorld {[ ["overlay"; "overlay-api.py"]%string
                               := FText EmptyString ]}
                      {[ ["overlay"%string] ]} None []) _ _)).
  - reflexivity.
  - reflexivity.
Defined.

(** ** Frame acquisition *)

Lemma io_bind_ok {A B} (m : IO A) (f : A -> IO B) (w w' : World) (a : A) :
  m w = (Ok a, w') -> (m ≫= f) w = f a w'.
Proof. intros Hm. unfold mbind, io_bind. by rewrite Hm. Qed.

Lemma imwrite_written (p : path) (img : Image) (w : World) :
  dir_exists (parent p) w = true ->
  cv2_imwrite p img w
  = (Ok true, set_files w (<[p := FImage img]> (w_files w))).
Proof. intros Hdir. unfold cv2_imwrite. by rewrite Hdir. Qed.

Lemma imread_image (p : path) (img : Image) (w : World) :
  w_files w !! p = Some (FImage img) -> cv2_imread p w = (Ok (Some img), w).
Proof. intros Hfile. unfold cv2_imread. by rewrite Hfile. Qed.

Lemma transform_image_at (ov : GPSOverlay) (p : path) (img : Image) w :
  w_files w !! p = Some (FImage img) ->
  transform_image ov p w = (transform ov img, w).
Proof.
  intros Hfile. unfold transform_image.
  by rewrite (io_bind_ok _ _ _ _ _ (imread_image _ _ _ Hfile)).
Qed.

Lemma mkdir_parents_made (d : path) (w : World) :
  Forall (fun a => w_files w !! a = None) (ancestors d) ->
  mkdir_parents d w
  = (Ok tt, set_dirs w (w_dirs w ∪ list_to_set (ancestors d))).
Proof.
  intros Hfree. unfold mkdir_parents.
  rewrite bool_decide_eq_false_2; [done|].
  intros (a & Ha & [f Hf])%Exists_exists.
  rewrite Forall_forall in Hfree. rewrite (Hfree a Ha) in Hf. done.
Qed.

Lemma dir_exists_made (d : path) (w : World) :
  dir_exists d (set_dirs w (w_dirs w ∪ list_to_set (ancestors d))) = true.
Proof.
  unfold dir_exists. apply bool_decide_eq_true_2.
  destruct d as [|c d]; [by left|]. right.
  unfold set_dirs. cbn [w_dirs].
  apply elem_of_union_r, elem_of_list_to_set. unfold ancestors.
  apply list_elem_of_fmap. exists (length (c :: d)).
  split; [by rewrite firstn_all|].
  apply elem_of_seq. cbn [length]. lia.
Qed.

Lemma root_dir_exists (w : World) : dir_exists [] w = true.
Proof. unfold dir_exists. apply bool_decide_eq_true_2. by left. Qed.

(** The step shared by both recoveries: the fetched frame lies at the
    snapshot path, the overlay rectifies it, the rectified image is
    written out. *)
Lemma rectify_saved (ov : GPSOverlay) (p : path) (w : World)
    (frame rectified : Image) (offset_info : OffsetInfo)
    (k : Image -> IO (Image * Z * Z * OffsetInfo)) :
  w_files w !! p = Some (FImage frame) ->
  transform ov frame = Ok (rectified, offset_info) ->
  k = (fun _ =>
         '(rectified, offset_info) ← transform_image ov p;
         _ ← cv2_imwrite rectified_path rectified;
         mret (rectified, img_width rectified, img_height rectified,
               offset_info)) ->
  exists w' : World,
    k frame w
    = (Ok (rectified, img_width rectified, img_height rectified,
           offset_info), w')
    /\ w_log w' = w_log w
    /\ (p <> rectified_path -> w_files w' !! p = Some (FImage frame)).
Proof.
  intros Hfile Htr ->.
  erewrite io_bind_ok
    by (rewrite (transform_image_at _ _ _ _ Hfile), Htr; reflexivity).
  simpl.
  rewrite (io_bind_ok _ _ _ _ _
             (imwrite_written rectified_path _ _ (root_dir_exists _))).
  eexists. split; [reflexivity|]. split; [reflexivity|].
  intros Hne. simpl. by rewrite lookup_insert_ne.
Qed.

(** C8: when the snapshot file is missing, or is there but is not a
    readable image, and the camera answers with a frame,
    [_get_rectified_frame] does not raise: it fetches the frame, stores
    it at the snapshot path and returns the overlay's rectification of
    that frame with its dimensions and offsets. *)
Theorem rectified_frame_recovers (ov : GPSOverlay)
    (snapshot_path : option path) (w : World)
    (frame rectified : Image) (offset_info : OffsetInfo) :
  let p := default ["snapshot_raw.png"%string] snapshot_path in
  (w_files w !! p = None /\ dir_exists p w = false
   /\ Forall (fun a => w_files w !! a = None) (ancestors (parent p)))
  \/ ((exists text, w_files w !! p = Some (FText text))
      /\ dir_exists (parent p) w = true) ->
  w_camera w = Some frame ->
  transform ov frame = Ok (rectified, offset_info) ->
  exists w' : World,
    _get_rectified_frame ov snapshot_path w
    = (Ok (rectified, img_width rectified, img_height rectified,
           offset_info), w')
    /\ w_log w' = w_log w ++ [CameraFetched]
    /\ (p <> rectified_path -> w_files w' !! p = Some (FImage frame)).
Proof.
  intros p Hcase Hcam Htr.
  assert (fetch_axis_snapshot w = (Ok frame, add_log w CameraFetched))
    as Hfetch.
  { unfold fetch_axis_snapshot. by rewrite Hcam. }
  unfold _get_rectified_frame.
  replace (match snapshot_path with
           | Some p0 => p0
           | None => ["snapshot_raw.png"%string]
           end) with p by (by destruct snapshot_path).
  destruct Hcase as [(Hnone & Hnodir & Hfree) | ([text Htext] & Hdir)].
  - (* no snapshot *)
    rewrite (io_bind_ok _ _ _ _ _ (path_exists_false _ _ Hnone Hnodir)).
    set (w1 := add_log w CameraFetched).
    set (w2 := set_dirs w1 (w_dirs w1 ∪ list_to_set (ancestors (parent p)))).
    set (w3 := set_files w2 (<[p := FImage frame]> (w_files w2))).
    erewrite io_bind_ok; cycle 1.
    { rewrite (io_bind_ok _ _ _ _ _ Hfetch).
      rewrite (io_bind_ok _ _ _ _ _ (mkdir_parents_made _ w1 Hfree)).
      rewrite (io_bind_ok _ _ _ _ _
                 (imwrite_written _ _ _ (dir_exists_made _ w1))).
      reflexivity. }
    destruct (rectify_saved ov p w3 frame rectified offset_info _
                (lookup_insert_eq _ _ _) Htr eq_refl)
      as (w' & Hrun & Hlog & Hsaved).
    exists w'. split; [exact Hrun|]. split; [|exact Hsaved].
    by rewrite Hlog.
  - (* a snapshot that is not an image *)
    erewrite io_bind_ok; cycle 1.
    { unfold path_exists. rewrite Htext. reflexivity. }
    simpl.
    set (w1 := add_log w CameraFetched).
    set (w3 := set_files w1 (<[p := FImage frame]> (w_files w1))).
    erewrite io_bind_ok; cycle 1.
    { erewrite io_bind_ok
        by (unfold cv2_imread; rewrite Htext; reflexivity).
      simpl. rewrite (io_bind_ok _ _ _ _ _ Hfetch).
      erewrite io_bind_ok by (by apply imwrite_written).
      reflexivity. }
    destruct (rectify_saved ov p w3 frame rectified offset_info _
                (lookup_insert_eq _ _ _) Htr eq_refl)
      as (w' & Hrun & Hlog & Hsaved).
    exists w'. split; [exact Hrun|]. split; [|exact Hsaved].
    by rewrite Hlog.
Qed.

(** [rectified_frame_recovers] with no snapshot on disk, and with a
    snapshot file that is not an image. *)
Lemma rectified_frame_recovers_witness :
  let ov := mkGPSOverlay 2 2 (fun _ _ => mkCellInfo false 0 0)
              (fun img => Ok (img, mkOffsetInfo 3 4)) in
  let frame := mkImage 2 2 [1; 2; 3; 4] in
  let broken :=
    mkWorld {[ ["snapshot_raw.png"%string] := FText "not a picture" ]}
      ∅ (Some frame) [] in
  (exists w' : World,
     _get_rectified_frame ov None (mkWorld ∅ ∅ (Some frame) [])
     = (Ok (frame, 2, 2, mkOffsetInfo 3 4), w')
     /\ w_log w' = [CameraFetched]
     /\ (["snapshot_raw.png"%string] <> rectified_path ->
         w_files w' !! ["snapshot_raw.png"%string] = Some (FImage frame)))
  /\ (exists w' : World,
        _get_rectified_frame ov None broken
        = (Ok (frame, 2, 2, mkOffsetInfo 3 4), w')
        /\ w_log w' = [CameraFetched]
        /\ (["snapshot_raw.png"%string] <> rectified_path ->
            w_files w' !! ["snapshot_raw.png"%string]
            = Some (FImage frame))).
Proof.
  intros ov frame broken. split.
  - apply (rectified_frame_recovers ov None (mkWorld ∅ ∅ (Some frame) [])
             frame frame (mkOffsetInfo 3 4)).
    + left. split; [reflexivity|]. split; [reflexivity|]. constructor.
    + reflexivity.
    + reflexivity.
  - apply (rectified_frame_recovers ov None broken
             frame frame (mkOffsetInfo 3 4)).
    + right. split; [by eexists|reflexivity].
    + reflexivity.
    + reflexivity.
Defined.

(** ** The grid of a running editor *)

Lemma io_bind_inv {A B} (m : IO A) (f : A -> IO B) (w w' : World) (b : B) :
  (m ≫= f) w = (Ok b, w') ->
  exists (a : A) (w1 : World), m w = (Ok a, w1) /\ f a w1 = (Ok b, w').
Proof.
  unfold mbind, io_bind. destruct (m w) as [[a|e] w1]; [eauto|done].
Qed.

Section EditorFacts.
Variables (DEFAULT_GRID_PATH project_root : path).
Variables (_draw_grid_overlay _draw_header_overlay
             : Image -> EditorState -> result Image).

(** The loop changes the state object through the mouse callback only. *)
Lemma editor_loop_state (polls : list Poll) (base : Image)
    (state state' : EditorState) (is_fullscreen : bool)
    (w w' : World) (e : loop_end) :
  editor_loop _draw_grid_overlay _draw_header_overlay polls base state
    is_fullscreen w
  = (Ok (e, state'), w') ->
  exists evs : list MouseEvent, state' = after_mouse_events state evs.
Proof.
  revert state is_fullscreen w.
  induction polls as [|poll polls IH]; intros state is_fullscreen w Hrun.
  - injection Hrun as <- <- <-. by exists [].
  - cbn [editor_loop] in Hrun.
    apply io_bind_inv in Hrun as (display_frame & w1 & _ & Hrun).
    apply io_bind_inv in Hrun as (with_header & w2 & _ & Hrun).
    apply io_bind_inv in Hrun as (? & w3 & _ & Hrun).
    cbv zeta in Hrun.
    destruct (Z.land (poll_key poll) 255 =? 113).
    + injection Hrun as <- <- <-. by exists (poll_mouse poll).
    + apply io_bind_inv in Hrun as (? & w4 & _ & Hrun).
      apply io_bind_inv in Hrun as (? & w5 & _ & Hrun).
      apply io_bind_inv in Hrun as (fs & w6 & _ & Hrun).
      apply IH in Hrun as [evs ->].
      exists (poll_mouse poll ++ evs).
      unfold after_mouse_events. by rewrite foldl_app.
Qed.

(** The state [run_editor] ends with: the seeded grid, after the mouse
    events of the polls. *)
Lemma run_editor_state (ov : GPSOverlay) (gpath : path) (polls : list Poll)
    (w w' : World) (e : loop_end) (state' : EditorState) :
  run_editor _draw_grid_overlay _draw_header_overlay ov gpath polls w
  = (Ok (e, state'), w') ->
  exists (persisted : list (list Z)) (state : EditorState)
         (evs : list MouseEvent),
    load_grid gpath w = (Ok persisted, w)
    /\ _seed_grid (grid_rows ov) (grid_cols ov) persisted = Ok (grid state)
    /\ state' = after_mouse_events state evs.
Proof.
  intros Hrun. unfold run_editor in Hrun.
  apply io_bind_inv in Hrun as (persisted & w1 & Hload & Hrun).
  assert (w1 = w) as ->.
  { unfold load_grid in Hload.
    destruct (w_files w !! gpath) as [[text|img]|];
      [destruct (Json.loads text)|..]; by injection Hload. }
  apply io_bind_inv in Hrun as (g & w2 & Hseed & Hrun).
  injection Hseed as Hseed <-.
  apply io_bind_inv in Hrun
    as ([[[rectified rect_width] rect_height] offset_info] & w3 & _ & Hrun).
  apply io_bind_inv in Hrun as (? & w4 & _ & Hrun).
  apply io_bind_inv in Hrun as (? & w5 & _ & Hrun).
  apply io_bind_inv in Hrun as (? & w6 & _ & Hrun).
  apply io_bind_inv in Hrun as (initial & w7 & _ & Hrun).
  apply io_bind_inv in Hrun as (? & w8 & _ & Hrun).
  unfold try_finally_destroy in Hrun.
  destruct (editor_loop _ _ polls _ _ _ w8) as [[[e1 state1]|err] w9]
    eqn:Hloop; [|by destruct err].
  apply editor_loop_state in Hloop as [evs ->].
  exists persisted, (mkEditorState g ov (grid_rows ov) (grid_cols ov)
                       (oi_offset_x offset_info) (oi_offset_y offset_info)
                       rect_width rect_height gpath), evs.
  split; [done|]. split; [done|].
  destruct e1; by injection Hrun as <- <- <-.
Qed.

End EditorFacts.

(** A session: a 2x2 editor over a saved 2x3 grid; clicks on cells
    (0, 1) and (1, 0), one event that is no press and one click outside
    the arena; then [s] and [q]. *)
Example editor_session :
  let ov :=
    mkGPSOverlay 2 2
      (fun x y =>
         mkCellInfo ((0 <=? x) && (x <? 20) && (0 <=? y) && (y <? 20))
           (y / 10) (x / 10))
      (fun img => Ok (img, mkOffsetInfo 0 0)) in
  let w :=
    mkWorld {[ ["grid.json"%string] := FText "[[0, 1, 5], [2]]" ]} ∅
      (Some (mkImage 20 20 [])) [] in
  let polls :=
    [mkPoll [mkMouseEvent 1 15 5 0; mkMouseEvent 0 3 3 0;
             mkMouseEvent 1 25 5 0] (-1);
     mkPoll [mkMouseEvent 1 5 15 0] 115;
     mkPoll [] 113] in
  match run_editor (fun img _ => Ok img) (fun img _ => Ok img) ov
          ["grid.json"%string] polls w with
  | (Ok (e, state), w') =>
      e = Quit /\ grid state = [[0; 2]; [0; 0]]
      /\ w_files w' !! ["grid.json"%string]
         = Some (FText "[[0, 2], [0, 0]]")
  | (Raise _, _) => False
  end.
Proof. vm_compute. done. Qed.

(** ** The data-model invariant *)

(** Seeding from the persisted array [[7]] gives a grid holding 7: the
    invariant of the data model does not hold for every persisted
    input. *)
Lemma seed_grid_breaks_invariant :
  exists g : Grid, _seed_grid 1 1 [[7]] = Ok g /\ ~ grid_inv 1 1 g.
Proof.
  exists [[7]]. split; [reflexivity|].
  intros [_ Hvalid]. unfold cells_valid in Hvalid.
  apply Forall_cons in Hvalid as [Hrow _].
  apply Forall_cons in Hrow as [H7 _].
  unfold is_state, FREE, OBSTACLE, HOME in H7. lia.
Qed.

(** C3, as the code has it: for any persisted input [_seed_grid] returns
    a rectangular rows-by-cols grid and the click handler keeps that
    shape through any sequence of mouse events; the cells all lie in
    FREE, OBSTACLE, HOME after seeding and after any sequence of mouse
    events provided the persisted values inside the requested
    dimensions do. *)
Theorem editor_grid_invariant (nrows ncols : Z) (persisted : list (list Z)) :
  let valid_in :=
    forall (r c : nat) (v : Z),
      Z.of_nat r < nrows -> Z.of_nat c < ncols ->
      cell persisted r c = Some v -> is_state v in
  (exists g : Grid,
     _seed_grid nrows ncols persisted = Ok g
     /\ forall (state : EditorState) (evs : list MouseEvent),
          grid state = g ->
          rectangular (Z.to_nat nrows) (Z.to_nat ncols)
            (grid (after_mouse_events state evs))
          /\ (valid_in ->
              grid_inv (Z.to_nat nrows) (Z.to_nat ncols)
                (grid (after_mouse_events state evs))))
  /\ forall (_draw_grid_overlay _draw_header_overlay
              : Image -> EditorState -> result Image)
       (ov : GPSOverlay) (gpath : path) (polls : list Poll)
       (w w' : World) (e : loop_end) (state' : EditorState),
       grid_rows ov = nrows -> grid_cols ov = ncols ->
       load_grid gpath w = (Ok persisted, w) ->
       run_editor _draw_grid_overlay _draw_header_overlay ov gpath polls w
       = (Ok (e, state'), w') ->
       rectangular (Z.to_nat nrows) (Z.to_nat ncols) (grid state')
       /\ (valid_in ->
           grid_inv (Z.to_nat nrows) (Z.to_nat ncols) (grid state')).
Proof.
  intros valid_in.
  assert (forall (state : EditorState) (evs : list MouseEvent),
            grid state = seed_spec (Z.to_nat nrows) (Z.to_nat ncols) persisted ->
            rectangular (Z.to_nat nrows) (Z.to_nat ncols)
              (grid (after_mouse_events state evs))
            /\ (valid_in ->
                grid_inv (Z.to_nat nrows) (Z.to_nat ncols)
                  (grid (after_mouse_events state evs)))) as Hkept.
  { intros state evs Hg.
    destruct (after_mouse_events_preserves evs state
                (Z.to_nat nrows) (Z.to_nat ncols)) as [Hrect Hvalid].
    rewrite Hg in Hrect, Hvalid.
    pose proof (Hrect (seed_spec_rectangular _ _ _)) as Hrect'.
    split; [done|]. intros Hp. split; [done|].
    apply Hvalid, seed_spec_valid. intros r c v Hr Hc. apply Hp; lia. }
  split.
  - eexists. split; [apply seed_grid_refines|]. exact Hkept.
  - intros dgo dho ov gpath polls w w' e state' <- <- Hload Hrun.
    apply run_editor_state in Hrun
      as (persisted' & state & evs & Hload' & Hseed & ->).
    rewrite Hload in Hload'. injection Hload' as <-.
    rewrite seed_grid_refines in Hseed. injection Hseed as Hseed.
    by apply Hkept.
Qed.

(** [editor_grid_invariant] on a 2x2 editor seeded from a persisted 1x3
    row, after a click on cell (0, 0). *)
Lemma editor_grid_invariant_witness :
  grid_inv 2 2
    (grid (after_mouse_events
             (mkEditorState [[1; 2]; [0; 0]]
                (mkGPSOverlay 2 2 (fun _ _ => mkCellInfo true 0 0)
                   (fun img => Ok (img, mkOffsetInfo 0 0)))
                2 2 0 0 4 4 ["grid.json"%string])
             [mkMouseEvent EVENT_LBUTTONDOWN 1 1 0])).
Proof.
  destruct (editor_grid_invariant 2 2 [[1; 2; 7]])
    as [(g & Hseed & Hinv) _].
  injection Hseed as <-.
  refine (proj2 (Hinv (mkEditorState [[1; 2]; [0; 0]] _ 2 2 0 0 4 4 _) _
                   eq_refl) _).
  intros r c v Hr Hc.
  destruct r as [|[|r]]; destruct c as [|[|c]]; try lia;
    intros [= <-]; unfold is_state, FREE, OBSTACLE, HOME; lia.
Defined.


(** * Further properties of the editor's code *)

(** ** More on [_seed_grid] *)

Lemma rectangular_cell (g : Grid) (nrows ncols r c : nat) :
  rectangular nrows ncols g -> (r < nrows)%nat -> (c < ncols)%nat ->
  exists v : Z, cell g r c = Some v.
Proof.
  intros [Hlen Hrows] Hr Hc. unfold cell.
  destruct (lookup_lt_is_Some_2 g r) as [row Hrow]; [lia|].
  rewrite Hrow. simpl. apply lookup_lt_is_Some_2.
  by rewrite (Forall_lookup_1 _ _ _ _ Hrows Hrow).
Qed.

(** Two grids of the same shape with the same cells are the same grid. *)
Lemma grid_ext (g1 g2 : Grid) (nrows ncols : nat) :
  rectangular nrows ncols g1 -> rectangular nrows ncols g2 ->
  (forall r c : nat, (r < nrows)%nat -> (c < ncols)%nat ->
     cell g1 r c = cell g2 r c) ->
  g1 = g2.
Proof.
  intros [Hlen1 Hrows1] [Hlen2 Hrows2] Hcells.
  apply list_eq. intros r.
  destruct (Nat.lt_ge_cases r nrows) as [Hr|Hr].
  - destruct (lookup_lt_is_Some_2 g1 r) as [row1 Hrow1]; [lia|].
    destruct (lookup_lt_is_Some_2 g2 r) as [row2 Hrow2]; [lia|].
    rewrite Hrow1, Hrow2. f_equal. apply list_eq. intros c.
    pose proof (Forall_lookup_1 _ _ _ _ Hrows1 Hrow1) as Hl1.
    pose proof (Forall_lookup_1 _ _ _ _ Hrows2 Hrow2) as Hl2.
    simpl in Hl1, Hl2.
    destruct (Nat.lt_ge_cases c ncols) as [Hc|Hc].
    + specialize (Hcells r c Hr Hc). unfold cell in Hcells.
      by rewrite Hrow1, Hrow2 in Hcells.
    + by rewrite !lookup_ge_None_2 by lia.
  - by rewrite !lookup_ge_None_2 by lia.
Qed.

Lemma seed_spec_fixed (nrows ncols : nat) (g : Grid) :
  rectangular nrows ncols g -> seed_spec nrows ncols g = g.
Proof.
  intros Hrect.
  apply (grid_ext _ _ nrows ncols); [apply seed_spec_rectangular|done|].
  intros r c Hr Hc. rewrite seed_spec_cell by done.
  by destruct (rectangular_cell g nrows ncols r c Hrect Hr Hc) as [v ->].
Qed.

Lemma seed_spec_twice (r1 c1 r2 c2 : nat) (persisted : list (list Z)) :
  (r2 <= r1)%nat -> (c2 <= c1)%nat ->
  seed_spec r2 c2 (seed_spec r1 c1 persisted) = seed_spec r2 c2 persisted.
Proof.
  intros Hr Hc.
  apply (grid_ext _ _ r2 c2); [apply seed_spec_rectangular..|].
  intros r c Hr2 Hc2. rewrite !seed_spec_cell by lia. done.
Qed.

(** X1: seeding from a grid that already has the requested dimensions
    gives that grid back, whatever its cell values. *)
Theorem seed_grid_same_dimensions (nrows ncols : Z) (g : Grid) :
  rectangular (Z.to_nat nrows) (Z.to_nat ncols) g ->
  _seed_grid nrows ncols g = Ok g.
Proof.
  intros Hrect. rewrite seed_grid_refines. f_equal.
  by apply seed_spec_fixed.
Qed.

(** [seed_grid_same_dimensions] on a 2x3 grid holding a stray 7. *)
Lemma seed_grid_same_dimensions_witness :
  _seed_grid 2 3 [[0; 1; 2]; [7; 0; 1]] = Ok [[0; 1; 2]; [7; 0; 1]].
Proof.
  apply (seed_grid_same_dimensions 2 3 [[0; 1; 2]; [7; 0; 1]]).
  split; [reflexivity|]. repeat constructor.
Defined.

(** X2: with nothing persisted the seeded grid is all FREE, of the
    requested size; a row count of zero or less gives the empty grid and
    a column count of zero or less gives empty rows, never an error. *)
Theorem seed_grid_edges (nrows ncols : Z) (persisted : list (list Z)) :
  _seed_grid nrows ncols []
  = Ok (replicate (Z.to_nat nrows) (replicate (Z.to_nat ncols) FREE))
  /\ (nrows <= 0 -> _seed_grid nrows ncols persisted = Ok [])
  /\ (ncols <= 0 ->
      _seed_grid nrows ncols persisted = Ok (replicate (Z.to_nat nrows) [])).
Proof.
  rewrite !seed_grid_refines. split; [|split].
  - unfold seed_spec. by rewrite take_nil, Nat.sub_0_r.
  - intros Hn. by rewrite (Z2Nat.nonpos nrows) by done.
  - intros Hn. rewrite (Z2Nat.nonpos ncols) by done. f_equal.
    apply (grid_ext _ _ (Z.to_nat nrows) 0).
    + apply seed_spec_rectangular.
    + split; [apply length_replicate|]. by apply Forall_replicate.
    + intros r c _ Hc. lia.
Qed.

(** [seed_grid_edges] with a negative row count and with no columns. *)
Lemma seed_grid_edges_witness :
  _seed_grid (-1) 3 [[1; 2]] = Ok []
  /\ _seed_grid 2 0 [[1; 2]] = Ok [[]; []].
Proof.
  destruct (seed_grid_edges (-1) 3 [[1; 2]]) as (_ & Hrows & _).
  destruct (seed_grid_edges 2 0 [[1; 2]]) as (_ & _ & Hcols).
  split; [apply Hrows; lia | apply Hcols; lia].
Defined.

(** X3: clipping composes: seeding a smaller grid from a seeded grid is
    seeding the smaller grid from the persisted data directly. *)
Theorem seed_grid_twice (rows1 cols1 rows2 cols2 : Z)
    (persisted : list (list Z)) :
  rows2 <= rows1 -> cols2 <= cols1 ->
  (g ← _seed_grid rows1 cols1 persisted; _seed_grid rows2 cols2 g)
  = _seed_grid rows2 cols2 persisted.
Proof.
  intros Hr Hc. rewrite !seed_grid_refines. simpl.
  rewrite seed_grid_refines. f_equal. apply seed_spec_twice; lia.
Qed.

(** [seed_grid_twice]: 3x3 then 2x2 from a persisted 4x2 grid. *)
Lemma seed_grid_twice_witness :
  (g ← _seed_grid 3 3 [[1; 2]; [0; 1]; [2; 2]; [1; 1]]; _seed_grid 2 2 g)
  = _seed_grid 2 2 [[1; 2]; [0; 1]; [2; 2]; [1; 1]].
Proof.
  apply (seed_grid_twice 3 3 2 2 [[1; 2]; [0; 1]; [2; 2]; [1; 1]]); lia.
Defined.

(** ** More on the click handler *)

(** What a click leaves in a cell: the next state, or the value itself
    when it has none. *)
Definition bump (v : Z) : Z :=
  match next_state v with
  | Ok v' => v'
  | Raise _ => v
  end.

Lemma set_grid_same (state : EditorState) : set_grid state (grid state) = state.
Proof. by destruct state. Qed.

Lemma set_grid_set_grid (state : EditorState) (g1 g2 : Grid) :
  set_grid (set_grid state g1) g2 = set_grid state g2.
Proof. done. Qed.

(** A left press on the in-grid cell [(r, c)], as seen from outside the
    callback. *)
Lemma after_mouse_click (x y flags : Z) (state : EditorState)
    (r c : nat) (row : list Z) (v : Z) :
  get_grid_cell_from_rectified (overlay state)
    (x + offset_x state) (y + offset_y state)
  = mkCellInfo true (Z.of_nat r) (Z.of_nat c) ->
  grid state !! r = Some row -> row !! c = Some v ->
  after_mouse state (mkMouseEvent EVENT_LBUTTONDOWN x y flags)
  = set_grid state (<[r := <[c := bump v]> row]> (grid state)).
Proof.
  intros Hinfo Hrow Hv. unfold after_mouse, bump. simpl.
  rewrite (handle_mouse_click x y flags state r c row v Hinfo Hrow Hv).
  destruct (next_state v) as [v'|e]; simpl; [done|].
  by rewrite (list_insert_id row c v), (list_insert_id _ r row),
    set_grid_same.
Qed.

Lemma after_mouse_clicks (n : nat) (x y flags : Z) (state : EditorState)
    (r c : nat) (row : list Z) (v : Z) :
  get_grid_cell_from_rectified (overlay state)
    (x + offset_x state) (y + offset_y state)
  = mkCellInfo true (Z.of_nat r) (Z.of_nat c) ->
  grid state !! r = Some row -> row !! c = Some v ->
  after_mouse_events state
    (replicate n (mkMouseEvent EVENT_LBUTTONDOWN x y flags))
  = set_grid state (<[r := <[c := Nat.iter n bump v]> row]> (grid state)).
Proof.
  revert state row v.
  induction n as [|n IH]; intros state row v Hinfo Hrow Hv.
  - simpl. by rewrite (list_insert_id row c v), (list_insert_id _ r row),
      set_grid_same.
  - cbn [replicate]. unfold after_mouse_events. cbn [foldl].
    rewrite (after_mouse_click x y flags state r c row v Hinfo Hrow Hv).
    fold (after_mouse_events
            (set_grid state (<[r := <[c := bump v]> row]> (grid state)))
            (replicate n (mkMouseEvent EVENT_LBUTTONDOWN x y flags))).
    pose proof (lookup_lt_Some _ _ _ Hrow) as Hr.
    pose proof (lookup_lt_Some _ _ _ Hv) as Hc.
    rewrite (IH _ (<[c := bump v]> row) (bump v)).
    + simpl. rewrite set_grid_set_grid, !list_insert_insert_eq.
      by rewrite <- Nat.iter_succ_r.
    + exact Hinfo.
    + simpl. by apply list_lookup_insert_eq.
    + by apply list_lookup_insert_eq.
Qed.

Lemma iter_bump (n : nat) (v : Z) :
  is_state v -> Nat.iter n bump v = (v + Z.of_nat n) mod 3.
Proof.
  intros Hv. induction n as [|n IH].
  - simpl. destruct Hv as [-> | [-> | ->]]; reflexivity.
  - change (Nat.iter (S n) bump v) with (bump (Nat.iter n bump v)).
    rewrite IH, Nat2Z.inj_succ.
    assert (0 <= (v + Z.of_nat n) mod 3 < 3) as Hm
      by (apply Z.mod_pos_bound; lia).
    replace (v + Z.succ (Z.of_nat n)) with ((v + Z.of_nat n) + 1) by lia.
    rewrite (Z.add_mod (v + Z.of_nat n) 1 3) by lia.
    assert ((v + Z.of_nat n) mod 3 = 0 \/ (v + Z.of_nat n) mod 3 = 1
            \/ (v + Z.of_nat n) mod 3 = 2) as [-> | [-> | ->]] by lia;
      reflexivity.
Qed.

(** X4: [n] left clicks on the same in-grid cell holding a state [v]
    leave the state [(v + n) mod 3] there and change nothing else; after
    three clicks (or any multiple of three) the editor state is exactly
    what it was. *)
Theorem repeated_clicks_cycle (n : nat) (x y flags : Z)
    (state : EditorState) (r c : nat) (row : list Z) (v : Z) :
  get_grid_cell_from_rectified (overlay state)
    (x + offset_x state) (y + offset_y state)
  = mkCellInfo true (Z.of_nat r) (Z.of_nat c) ->
  grid state !! r = Some row -> row !! c = Some v -> is_state v ->
  let clicks := replicate n (mkMouseEvent EVENT_LBUTTONDOWN x y flags) in
  after_mouse_events state clicks
  = set_grid state
      (<[r := <[c := (v + Z.of_nat n) mod 3]> row]> (grid state))
  /\ ((n mod 3 = 0)%nat -> after_mouse_events state clicks = state).
Proof.
  intros Hinfo Hrow Hv Hstate clicks. unfold clicks.
  rewrite (after_mouse_clicks n x y flags state r c row v Hinfo Hrow Hv).
  rewrite iter_bump by done. split; [done|].
  intros Hn.
  assert ((v + Z.of_nat n) mod 3 = v) as ->.
  { apply Nat.Div0.mod_divides in Hn as [k ->].
    rewrite Nat2Z.inj_mul, Z.mul_comm. simpl Z.of_nat.
    rewrite Z.mod_add by lia. apply Z.mod_small.
    unfold is_state, FREE, OBSTACLE, HOME in Hstate. lia. }
  by rewrite (list_insert_id row c v), (list_insert_id _ r row),
    set_grid_same.
Qed.

(** [repeated_clicks_cycle]: three clicks on the HOME cell (1, 0) of a
    2x2 grid. *)
Lemma repeated_clicks_cycle_witness :
  let ov := mkGPSOverlay 2 2 (fun _ _ => mkCellInfo true 1 0)
              (fun img => Ok (img, mkOffsetInfo 0 0)) in
  let state := mkEditorState [[0; 1]; [2; 0]] ov 2 2 0 0 4 4
                 ["grid.json"%string] in
  after_mouse_events state
    (replicate 3 (mkMouseEvent EVENT_LBUTTONDOWN 1 3 0))
  = state.
Proof.
  intros ov state.
  refine (proj2 (repeated_clicks_cycle 3 1 3 0 state 1 0 [2; 0] 2
                   eq_refl eq_refl eq_refl _) eq_refl).
  right; right; reflexivity.
Defined.

(** X5: left clicks on two different in-grid cells commute: either order
    leaves the same editor state, whatever the two cells hold. *)
Theorem clicks_commute (x1 y1 flags1 x2 y2 flags2 : Z)
    (state : EditorState) (r1 c1 r2 c2 : nat) (v1 v2 : Z) :
  get_grid_cell_from_rectified (overlay state)
    (x1 + offset_x state) (y1 + offset_y state)
  = mkCellInfo true (Z.of_nat r1) (Z.of_nat c1) ->
  get_grid_cell_from_rectified (overlay state)
    (x2 + offset_x state) (y2 + offset_y state)
  = mkCellInfo true (Z.of_nat r2) (Z.of_nat c2) ->
  cell (grid state) r1 c1 = Some v1 -> cell (grid state) r2 c2 = Some v2 ->
  (r1, c1) <> (r2, c2) ->
  let e1 := mkMouseEvent EVENT_LBUTTONDOWN x1 y1 flags1 in
  let e2 := mkMouseEvent EVENT_LBUTTONDOWN x2 y2 flags2 in
  after_mouse_events state [e1; e2] = after_mouse_events state [e2; e1].
Proof.
  intros Hinfo1 Hinfo2 Hcell1 Hcell2 Hne e1 e2.
  apply cell_inv in Hcell1 as (row1 & Hrow1 & Hv1).
  apply cell_inv in Hcell2 as (row2 & Hrow2 & Hv2).
  pose proof (lookup_lt_Some _ _ _ Hrow1) as Hr1.
  pose proof (lookup_lt_Some _ _ _ Hrow2) as Hr2.
  unfold after_mouse_events, e1, e2. cbn [foldl].
  rewrite (after_mouse_click x1 y1 flags1 state r1 c1 row1 v1 Hinfo1 Hrow1 Hv1).
  rewrite (after_mouse_click x2 y2 flags2 state r2 c2 row2 v2 Hinfo2 Hrow2 Hv2).
  destruct (decide (r1 = r2)) as [<-|Hr].
  - assert (row2 = row1) as -> by congruence.
    assert (c1 <> c2) as Hc by congruence.
    rewrite (after_mouse_click x2 y2 flags2 _ r1 c2
               (<[c1 := bump v1]> row1) v2); cycle 1.
    { exact Hinfo2. }
    { simpl. by apply list_lookup_insert_eq. }
    { by rewrite list_lookup_insert_ne. }
    rewrite (after_mouse_click x1 y1 flags1 _ r1 c1
               (<[c2 := bump v2]> row1) v1); cycle 1.
    { exact Hinfo1. }
    { simpl. by apply list_lookup_insert_eq. }
    { by rewrite list_lookup_insert_ne. }
    simpl. rewrite !set_grid_set_grid, !list_insert_insert_eq.
    by rewrite (list_insert_insert_ne row1 c2 c1).
  - rewrite (after_mouse_click x2 y2 flags2 _ r2 c2 row2 v2); cycle 1.
    { exact Hinfo2. }
    { simpl. by rewrite list_lookup_insert_ne. }
    { exact Hv2. }
    rewrite (after_mouse_click x1 y1 flags1 _ r1 c1 row1 v1); cycle 1.
    { exact Hinfo1. }
    { simpl. by rewrite list_lookup_insert_ne. }
    { exact Hv1. }
    simpl. rewrite !set_grid_set_grid.
    by rewrite (list_insert_insert_ne (grid state) r2 r1).
Qed.

(** [clicks_commute] on a 2x2 grid: the cell in the left half and the
    cell in the right half of the top row. *)
Lemma clicks_commute_witness :
  let ov := mkGPSOverlay 2 2 (fun x _ => mkCellInfo true 0 (x / 10))
              (fun img => Ok (img, mkOffsetInfo 0 0)) in
  let state := mkEditorState [[0; 7]; [2; 0]] ov 2 2 0 0 4 4
                 ["grid.json"%string] in
  after_mouse_events state
    [mkMouseEvent EVENT_LBUTTONDOWN 5 5 0;
     mkMouseEvent EVENT_LBUTTONDOWN 15 5 0]
  = after_mouse_events state
      [mkMouseEvent EVENT_LBUTTONDOWN 15 5 0;
       mkMouseEvent EVENT_LBUTTONDOWN 5 5 0].
Proof.
  intros ov state.
  apply (clicks_commute 5 5 0 15 5 0 state 0 0 0 1 0 7);
    [reflexivity | reflexivity | reflexivity | reflexivity | discriminate].
Defined.

Lemma norm_index_inside (len i : Z) :
  - len <= i < len -> Py.norm_index len i = Some (Z.to_nat (i mod len)).
Proof.
  intros Hi. unfold Py.norm_index.
  destruct (Z.ltb_spec i 0) as [Hneg|Hpos].
  - destruct (Z.leb_spec 0 (i + len)); [|lia].
    destruct (Z.ltb_spec (i + len) len); [|lia]. simpl. do 2 f_equal.
    apply (Z.mod_unique _ _ (-1)); lia.
  - destruct (Z.leb_spec 0 i); [|lia].
    destruct (Z.ltb_spec i len); [|lia]. simpl.
    by rewrite Z.mod_small by lia.
Qed.

Lemma norm_index_outside (len i : Z) :
  0 <= len -> i < - len \/ len <= i -> Py.norm_index len i = None.
Proof.
  intros Hlen Hi. unfold Py.norm_index.
  destruct (Z.ltb_spec i 0) as [Hneg|Hpos].
  - destruct (Z.leb_spec 0 (i + len)); [lia|done].
  - destruct (Z.leb_spec 0 i); [|lia].
    destruct (Z.ltb_spec i len); [lia|done].
Qed.

Lemma getitem_outside {A} (l : list A) (i : Z) :
  i < - Z.of_nat (length l) \/ Z.of_nat (length l) <= i ->
  Py.getitem l i = Raise IndexError.
Proof.
  intros Hout. unfold Py.getitem. by rewrite norm_index_outside by lia.
Qed.

Lemma getitem_inside {A} (l : list A) (i : Z) (a : A) :
  - Z.of_nat (length l) <= i < Z.of_nat (length l) ->
  l !! Z.to_nat (i mod Z.of_nat (length l)) = Some a ->
  Py.getitem l i = Ok a.
Proof.
  intros Hin Ha. unfold Py.getitem. by rewrite norm_index_inside, Ha.
Qed.

Lemma setitem_inside {A} (l : list A) (i : Z) (a : A) :
  - Z.of_nat (length l) <= i < Z.of_nat (length l) ->
  Py.setitem l i a = Ok (<[Z.to_nat (i mod Z.of_nat (length l)) := a]> l).
Proof.
  intros Hin. unfold Py.setitem. by rewrite norm_index_inside.
Qed.

(** X6: when the overlay reports an in-bounds cell whose row or column
    lies outside the grid, counting from either end, a left click raises
    IndexError; a negative row or column within range addresses the grid
    from its end, as Python indexing does, and that cell is the one the
    click cycles. *)
Theorem handle_mouse_index_edges (x y flags row col : Z)
    (state : EditorState) :
  get_grid_cell_from_rectified (overlay state)
    (x + offset_x state) (y + offset_y state)
  = mkCellInfo true row col ->
  let n := Z.of_nat (length (grid state)) in
  (row < - n \/ n <= row ->
     _handle_mouse EVENT_LBUTTONDOWN x y flags state = Raise IndexError)
  /\ forall grow : list Z,
       - n <= row < n ->
       grid state !! Z.to_nat (row mod n) = Some grow ->
       let m := Z.of_nat (length grow) in
       (col < - m \/ m <= col ->
          _handle_mouse EVENT_LBUTTONDOWN x y flags state = Raise IndexError)
       /\ forall v : Z,
            - m <= col < m ->
            grow !! Z.to_nat (col mod m) = Some v ->
            _handle_mouse EVENT_LBUTTONDOWN x y flags state
            = v' ← next_state v;
              Ok (set_grid state
                    (<[Z.to_nat (row mod n) :=
                         <[Z.to_nat (col mod m) := v']> grow]>
                       (grid state))).
Proof.
  intros Hinfo n.
  unfold _handle_mouse, _rectified_to_grid_cell.
  rewrite Z.eqb_refl, Hinfo. cbn [negb in_bounds ci_row ci_col].
  split.
  - intros Hout. by rewrite getitem_outside.
  - intros grow Hin Hgrow.
    rewrite (getitem_inside _ _ _ Hin Hgrow). cbn [mbind result_bind].
    split.
    + intros Hout. by rewrite getitem_outside.
    + intros v Hcin Hv.
      rewrite (getitem_inside _ _ _ Hcin Hv). cbn [mbind result_bind].
      destruct (next_state v) as [v'|e]; [|done]. cbn [mbind result_bind].
      unfold set_cell.
      rewrite (getitem_inside _ _ _ Hin Hgrow). cbn [mbind result_bind].
      rewrite (setitem_inside grow col v' Hcin). cbn [mbind result_bind].
      by rewrite (setitem_inside (grid state) row _ Hin).
Qed.

(** [handle_mouse_index_edges]: on a 2x2 grid the reported cell (-1, -1)
    is the bottom-right one, and row 2 is out of range. *)
Lemma handle_mouse_index_edges_witness :
  let state_with := fun info =>
    mkEditorState [[0; 1]; [2; 0]]
      (mkGPSOverlay 2 2 (fun _ _ => info)
         (fun img => Ok (img, mkOffsetInfo 0 0)))
      2 2 0 0 4 4 ["grid.json"%string] in
  _handle_mouse EVENT_LBUTTONDOWN 1 1 0 (state_with (mkCellInfo true 2 0))
  = Raise IndexError
  /\ exists state' : EditorState,
       _handle_mouse EVENT_LBUTTONDOWN 1 1 0
         (state_with (mkCellInfo true (-1) (-1)))
       = Ok state'
       /\ grid state' = [[0; 1]; [2; 1]].
Proof.
  intros state_with. split.
  - refine (proj1 (handle_mouse_index_edges 1 1 0 2 0
                     (state_with (mkCellInfo true 2 0)) eq_refl) _).
    right. simpl. lia.
  - eexists. split.
    + refine (proj2 (proj2 (handle_mouse_index_edges 1 1 0 (-1) (-1)
                       (state_with (mkCellInfo true (-1) (-1))) eq_refl)
                       [2; 0] _ eq_refl) 0 _ eq_refl).
      * simpl. lia.
      * simpl. lia.
    + reflexivity.
Defined.

(** ** The console snapshot of the grid *)

(** [DISPLAY_SYMBOL] *)
Definition DISPLAY_SYMBOL : gmap Z string :=
  <[FREE := "."%string]>
    (<[OBSTACLE := "#"%string]> (<[HOME := "H"%string]> ∅)).

Definition ESC : ascii := "027"%char.
Definition GREEN : string := String ESC "[92m".
Definition ORANGE : string := String ESC "[93m".
Definition RESET : string := String ESC "[0m".

(** The inner function [format_cell] of [_format_grid_snapshot]. *)
Definition format_cell (cell : Z) : string :=
  let symbol := default "?"%string (DISPLAY_SYMBOL !! cell) in
  if String.eqb symbol "H" then GREEN +:+ symbol +:+ RESET
  else if String.eqb symbol "X" then ORANGE +:+ symbol +:+ RESET
  else symbol.

Definition _format_grid_snapshot (grid : Grid) : string :=
  String.concat (String "010" EmptyString)
    ((fun row => String.concat " " (format_cell <$> row)) <$> grid).

(** [sub] occurs somewhere in [s]. *)
Definition occurs (sub s : string) : Prop :=
  exists pre post : string, s = pre +:+ sub +:+ post.

Lemma chars_app (a b : string) :
  list_ascii_of_string (a +:+ b)
  = list_ascii_of_string a ++ list_ascii_of_string b.
Proof. induction a as [|c a IH]; [done|]. simpl. by rewrite IH. Qed.

Lemma chars_concat (P : ascii -> Prop) (sep : string) (l : list string) :
  Forall P (list_ascii_of_string sep) ->
  Forall (fun s => Forall P (list_ascii_of_string s)) l ->
  Forall P (list_ascii_of_string (String.concat sep l)).
Proof.
  intros Hsep Hl. induction Hl as [|s l Hs Hl IH]; [constructor|].
  destruct l as [|s' l]; [done|].
  change (String.concat sep (s :: s' :: l))
    with (s +:+ sep +:+ String.concat sep (s' :: l)).
  rewrite !chars_app. by rewrite !Forall_app.
Qed.

Lemma format_cell_cases (cell : Z) :
  format_cell cell
  = if cell =? HOME then GREEN +:+ "H" +:+ RESET
    else if cell =? OBSTACLE then "#"%string
    else if cell =? FREE then "."%string
    else "?"%string.
Proof.
  unfold format_cell, DISPLAY_SYMBOL.
  destruct (Z.eqb_spec cell HOME) as [->|Hh]; [done|].
  destruct (Z.eqb_spec cell OBSTACLE) as [->|Ho]; [done|].
  destruct (Z.eqb_spec cell FREE) as [->|Hf]; [done|].
  by rewrite !lookup_insert_ne, lookup_empty by done.
Qed.

(** X7: [_format_grid_snapshot] never raises and shows HOME as a green
    [H], OBSTACLE as a bare [#], FREE as [.] and any other value as [?];
    the orange colour code of its second branch never reaches the
    output, because no symbol is [X]. *)
Theorem format_grid_snapshot_colours :
  (forall cell : Z,
     format_cell cell
     = if cell =? HOME then GREEN +:+ "H" +:+ RESET
       else if cell =? OBSTACLE then "#"%string
       else if cell =? FREE then "."%string
       else "?"%string)
  /\ forall grid : Grid, ~ occurs ORANGE (_format_grid_snapshot grid).
Proof.
  split; [apply format_cell_cases|].
  intros grid (pre & post & Heq).
  assert (Forall (fun c => c <> "3"%char)
            (list_ascii_of_string (_format_grid_snapshot grid))) as Hno.
  { apply chars_concat; [by repeat constructor|].
    apply Forall_fmap, Forall_forall. intros row _. simpl.
    apply chars_concat; [by repeat constructor|].
    apply Forall_fmap, Forall_forall. intros cell _. simpl.
    rewrite format_cell_cases.
    destruct (cell =? HOME); [by repeat constructor|].
    destruct (cell =? OBSTACLE); [by repeat constructor|].
    destruct (cell =? FREE); by repeat constructor. }
  rewrite Heq, !chars_app, !Forall_app in Hno.
  destruct Hno as (_ & Horange & _).
  unfold ORANGE in Horange. simpl in Horange.
  apply Forall_cons in Horange as [_ Horange].
  apply Forall_cons in Horange as [_ Horange].
  apply Forall_cons in Horange as [_ Horange].
  by apply Forall_cons in Horange as [Hthree _].
Qed.

Example format_grid_snapshot_example :
  _format_grid_snapshot [[0; 1]; [2; 7]]
  = (". #" +:+ String "010" (GREEN +:+ "H" +:+ RESET +:+ " ?"))%string.
Proof. reflexivity. Qed.

(** ** The counts in the header *)

(** [sum(...)] over a list of ints. *)
Definition py_sum (l : list Z) : Z := foldl Z.add 0 l.

(** [sum(1 for row in grid for cell in row if cell == value)] *)
Definition count_value (value : Z) (grid : Grid) : Z :=
  py_sum (row ← grid; cell ← row; if cell =? value then [1] else []).

Definition str_int (z : Z) : string :=
  DecimalString.NilZero.string_of_int (Z.to_int z).

(** The counts and the status line of [_draw_header_overlay]. *)
Definition obstacle_count (state : EditorState) : Z :=
  count_value OBSTACLE (grid state).
Definition home_count (state : EditorState) : Z :=
  count_value HOME (grid state).
Definition status_text (state : EditorState) : string :=
  "Grid: " +:+ str_int (rows state) +:+ "x" +:+ str_int (cols state)
  +:+ " cells | Obstacles: " +:+ str_int (obstacle_count state)
  +:+ " | Home: " +:+ str_int (home_count state).

Lemma foldl_add (a : Z) (l : list Z) : foldl Z.add a l = a + py_sum l.
Proof.
  unfold py_sum. revert a. induction l as [|z l IH]; intros a; simpl; [lia|].
  rewrite (IH (a + z)), (IH (0 + z)). lia.
Qed.

Lemma py_sum_app (l1 l2 : list Z) : py_sum (l1 ++ l2) = py_sum l1 + py_sum l2.
Proof. unfold py_sum at 1. rewrite foldl_app, foldl_add. done. Qed.

Definition row_count (value : Z) (row : list Z) : Z :=
  py_sum (cell ← row; if cell =? value then [1] else []).

Lemma row_count_cons (value cell : Z) (row : list Z) :
  row_count value (cell :: row)
  = (if cell =? value then 1 else 0) + row_count value row.
Proof.
  unfold row_count. cbn [mbind list_bind]. rewrite py_sum_app.
  by destruct (cell =? value).
Qed.

Lemma row_count_app (value : Z) (r1 r2 : list Z) :
  row_count value (r1 ++ r2) = row_count value r1 + row_count value r2.
Proof. unfold row_count. by rewrite bind_app, py_sum_app. Qed.

Lemma count_value_cons (value : Z) (row : list Z) (g : Grid) :
  count_value value (row :: g) = row_count value row + count_value value g.
Proof. unfold count_value. cbn [mbind list_bind]. by rewrite py_sum_app. Qed.

Lemma count_value_app (value : Z) (g1 g2 : Grid) :
  count_value value (g1 ++ g2) = count_value value g1 + count_value value g2.
Proof. unfold count_value. by rewrite bind_app, py_sum_app. Qed.

Lemma row_count_insert (value : Z) (row : list Z) (c : nat) (v v' : Z) :
  row !! c = Some v ->
  row_count value (<[c := v']> row)
  = row_count value row - (if v =? value then 1 else 0)
    + (if v' =? value then 1 else 0).
Proof.
  intros Hv. pose proof (lookup_lt_Some _ _ _ Hv) as Hc.
  rewrite insert_take_drop by done.
  rewrite <- (take_drop_middle row c v Hv) at 3.
  rewrite !row_count_app, !row_count_cons. lia.
Qed.

Lemma count_value_insert (value : Z) (g : Grid) (r : nat)
    (row row' : list Z) :
  g !! r = Some row ->
  count_value value (<[r := row']> g)
  = count_value value g - row_count value row + row_count value row'.
Proof.
  intros Hrow. pose proof (lookup_lt_Some _ _ _ Hrow) as Hr.
  rewrite insert_take_drop by done.
  rewrite <- (take_drop_middle g r row Hrow) at 3.
  rewrite !count_value_app, !count_value_cons. lia.
Qed.

(** X8: the header's counts follow the clicks: a left click on an
    in-grid FREE cell raises the obstacle count by one, on an OBSTACLE
    cell it lowers the obstacle count and raises the home count by one,
    on a HOME cell it lowers the home count by one; on a cell holding
    anything else both counts stay. *)
Theorem header_counts_after_click (x y flags : Z) (state : EditorState)
    (r c : nat) (v : Z) :
  get_grid_cell_from_rectified (overlay state)
    (x + offset_x state) (y + offset_y state)
  = mkCellInfo true (Z.of_nat r) (Z.of_nat c) ->
  cell (grid state) r c = Some v ->
  let state' :=
    after_mouse state (mkMouseEvent EVENT_LBUTTONDOWN x y flags) in
  (v = FREE ->
     obstacle_count state' = obstacle_count state + 1
     /\ home_count state' = home_count state)
  /\ (v = OBSTACLE ->
        obstacle_count state' = obstacle_count state - 1
        /\ home_count state' = home_count state + 1)
  /\ (v = HOME ->
        obstacle_count state' = obstacle_count state
        /\ home_count state' = home_count state - 1)
  /\ (~ is_state v ->
        obstacle_count state' = obstacle_count state
        /\ home_count state' = home_count state).
Proof.
  intros Hinfo Hcell state'.
  apply cell_inv in Hcell as (row & Hrow & Hv).
  assert (forall value : Z,
            count_value value (grid state')
            = count_value value (grid state)
              - (if v =? value then 1 else 0)
              + (if bump v =? value then 1 else 0)) as Hcount.
  { intros value. unfold state'.
    rewrite (after_mouse_click x y flags state r c row v Hinfo Hrow Hv).
    simpl. rewrite (count_value_insert value _ r row _ Hrow).
    rewrite (row_count_insert value row c v _ Hv). lia. }
  unfold obstacle_count, home_count. rewrite !Hcount.
  split; [|split; [|split]].
  - intros ->. change (bump FREE) with OBSTACLE. simpl. lia.
  - intros ->. change (bump OBSTACLE) with HOME. simpl. lia.
  - intros ->. change (bump HOME) with FREE. simpl. lia.
  - intros Hno. unfold bump. rewrite (next_state_KeyError v Hno).
    destruct (v =? OBSTACLE), (v =? HOME); lia.
Qed.

(** [header_counts_after_click]: a click on the OBSTACLE cell (0, 1). *)
Lemma header_counts_after_click_witness :
  let ov := mkGPSOverlay 2 2 (fun _ _ => mkCellInfo true 0 1)
              (fun img => Ok (img, mkOffsetInfo 0 0)) in
  let state := mkEditorState [[0; 1]; [2; 1]] ov 2 2 0 0 4 4
                 ["grid.json"%string] in
  let state' :=
    after_mouse state (mkMouseEvent EVENT_LBUTTONDOWN 3 1 0) in
  obstacle_count state' = obstacle_count state - 1
  /\ home_count state' = home_count state + 1.
Proof.
  intros ov state state'.
  destruct (header_counts_after_click 3 1 0 state 0 1 1 eq_refl eq_refl)
    as (_ & Hobstacle & _).
  apply Hobstacle. reflexivity.
Defined.

Example status_text_example :
  status_text (mkEditorState [[0; 1]; [2; 1]]
                 (mkGPSOverlay 2 2 (fun _ _ => mkCellInfo true 0 1)
                    (fun img => Ok (img, mkOffsetInfo 0 0)))
                 2 2 0 0 4 4 ["grid.json"%string])
  = "Grid: 2x2 cells | Obstacles: 2 | Home: 1"%string.
Proof. reflexivity. Qed.

(** ** [utils.py] *)

(** What [extract_attrs] gives: the tuple of attributes, or the
    AttributeError that [getattr] raises for a name. *)
Inductive attrs (V : Type) : Type :=
  | AttrValues (values : list V)
  | AttributeError (name : string).
Arguments AttrValues {V} values.
Arguments AttributeError {V} name.

(** [tuple(getattr(module, name) for name in attr_names)], the module
    being its namespace. *)
Fixpoint extract_attrs {V} (module : gmap string V)
    (attr_names : list string) : attrs V :=
  match attr_names with
  | [] => AttrValues []
  | name :: names =>
      match module !! name with
      | None => AttributeError name
      | Some value =>
          match extract_attrs module names with
          | AttrValues values => AttrValues (value :: values)
          | AttributeError missing => AttributeError missing
          end
      end
  end.

(** X9: [extract_attrs] returns the attributes in the order of the names
    when the module has them all, and raises AttributeError for the
    first name the module lacks, whatever comes after it. *)
Theorem extract_attrs_in_order {V} (module : gmap string V)
    (attr_names : list string) :
  (Forall (fun name => is_Some (module !! name)) attr_names ->
     exists values : list V,
       extract_attrs module attr_names = AttrValues values
       /\ (fun name => module !! name) <$> attr_names = Some <$> values)
  /\ forall (before after : list string) (name : string),
       attr_names = before ++ name :: after ->
       Forall (fun name => is_Some (module !! name)) before ->
       module !! name = None ->
       extract_attrs module attr_names = AttributeError name.
Proof.
  split.
  - induction 1 as [|name names [value Hvalue] _ (values & Hrun & Hvalues)].
    + by exists [].
    + exists (value :: values). split.
      * cbn [extract_attrs]. by rewrite Hvalue, Hrun.
      * rewrite !fmap_cons, Hvalue. by f_equal.
  - intros before after name -> Hbefore Hmissing.
    induction Hbefore as [|name' names [value Hvalue] _ IH]; simpl.
    + by rewrite Hmissing.
    + by rewrite Hvalue, IH.
Qed.

(** [extract_attrs_in_order] on a module with two of three names. *)
Lemma extract_attrs_in_order_witness :
  let module : gmap string Z :=
    <["get_map"%string := 1]> (<["get_symbol"%string := 2]> ∅) in
  extract_attrs module ["get_symbol"; "get_map"]%string = AttrValues [2; 1]
  /\ extract_attrs module ["get_map"; "get_map_info"; "get_symbol"]%string
     = AttributeError "get_map_info"%string.
Proof.
  intros module. split.
  - destruct (proj1 (extract_attrs_in_order module
                       ["get_symbol"; "get_map"]%string))
      as (values & Hrun & Hvalues).
    + repeat constructor; by eexists.
    + rewrite Hrun. f_equal.
      destruct values as [|v1 [|v2 [|v3 values]]]; try discriminate Hvalues.
      by injection Hvalues as <- <-.
  - apply (proj2 (extract_attrs_in_order module
                    ["get_map"; "get_map_info"; "get_symbol"]%string)
             ["get_map"%string] ["get_symbol"%string]).
    + reflexivity.
    + repeat constructor. by eexists.
    + reflexivity.
Defined.

Lemma path_exists_file (p : path) (f : file) (w : World) :
  w_files w !! p = Some f -> path_exists p w = (Ok true, w).
Proof. intros Hfile. unfold path_exists. by rewrite Hfile. Qed.

Section Importing.
Variables (has_loader : path -> bool) (exec_module : path -> IO OverlayModule).

Lemma load_module_missing (file_path : path) (name : string) (w : World) :
  w_files w !! file_path = None -> dir_exists file_path w = false ->
  load_module has_loader exec_module file_path name w
  = (Raise (ImportError
              ("Module file not found: " +:+ path_str file_path)), w).
Proof.
  intros Hfile Hdir. unfold load_module.
  by rewrite (io_bind_ok _ _ _ _ _ (path_exists_false _ _ Hfile Hdir)).
Qed.



(** X11: without [overlay/overlay-api.py] the script ends in
    SystemExit(1) while importing: [main] is not reached, so nothing is
    loaded, fetched, shown or written, whether or not the calibration
    file is there and whatever the input. *)
Theorem script_needs_overlay_module (DEFAULT_GRID_PATH project_root : path)
    (_draw_grid_overlay _draw_header_overlay
       : Image -> EditorState -> result Image)
    (polls : list Poll) (w : World) :
  let api_path := project_root ++ ["overlay"; "overlay-api.py"]%string in
  w_files w !! api_path = None -> dir_exists api_path w = false ->
  script DEFAULT_GRID_PATH project_root _draw_grid_overlay
    _draw_header_overlay has_loader exec_module polls w
  = (Raise (SystemExit 1), w).
Proof.
  intros api_path Hfile Hdir. unfold script, mbind at 1, io_bind.
  unfold import_api. fold api_path.
  by rewrite load_module_missing.
Qed.

End Importing.


(** [script_needs_overlay_module] with the calibration file in place. *)
Lemma script_needs_overlay_module_witness :
  let w :=
    mkWorld {[ ["overlay"; "gps_overlay.json"]%string := FText "{}" ]}
      {[ ["overlay"%string] ]} None [] in
  script ["grid.json"%string] [] (fun img _ => Ok img) (fun img _ => Ok img)
    (fun _ => true) (fun _ => io_raise OverlayError) [mkPoll [] 113] w
  = (Raise (SystemExit 1), w).
Proof.
  intros w.
  apply (script_needs_overlay_module (fun _ => true)
           (fun _ => io_raise OverlayError) ["grid.json"%string] []
           (fun img _ => Ok img) (fun img _ => Ok img) [mkPoll [] 113] w);
    reflexivity.
Defined.

(** ** More on frame acquisition *)

(** The snapshot path [_get_rectified_frame] works with. *)
Definition snapshot_of (snapshot_path : option path) : path :=
  default ["snapshot_raw.png"%string] snapshot_path.

(** The same world with the camera out of reach. *)
Definition unplug (w : World) : World :=
  mkWorld (w_files w) (w_dirs w) None (w_log w).

Lemma get_rectified_frame_path (ov : GPSOverlay)
    (snapshot_path : option path) :
  _get_rectified_frame ov snapshot_path
  = _get_rectified_frame ov (Some (snapshot_of snapshot_path)).
Proof. by destruct snapshot_path. Qed.

(** With a readable snapshot the frame comes from the file. *)
Lemma frame_from_snapshot (ov : GPSOverlay) (snapshot_path : option path)
    (w : World) (img rectified : Image) (offset_info : OffsetInfo) :
  w_files w !! snapshot_of snapshot_path = Some (FImage img) ->
  transform ov img = Ok (rectified, offset_info) ->
  _get_rectified_frame ov snapshot_path w
  = (Ok (rectified, img_width rectified, img_height rectified, offset_info),
     set_files w (<[rectified_path := FImage rectified]> (w_files w))).
Proof.
  intros Hfile Htr. rewrite get_rectified_frame_path.
  set (p := snapshot_of snapshot_path) in *.
  unfold _get_rectified_frame.
  rewrite (io_bind_ok _ _ _ _ _ (path_exists_file _ _ _ Hfile)).
  erewrite io_bind_ok
    by (rewrite (io_bind_ok _ _ _ _ _ (imread_image _ _ _ Hfile));
        reflexivity).
  erewrite io_bind_ok
    by (rewrite (transform_image_at _ _ _ _ Hfile), Htr; reflexivity).
  simpl.
  by rewrite (io_bind_ok _ _ _ _ _
                (imwrite_written rectified_path _ _ (root_dir_exists _))).
Qed.

(** With no readable snapshot the frame comes from the camera; the
    world afterwards, in full. *)
Lemma frame_from_camera (ov : GPSOverlay) (snapshot_path : option path)
    (w : World) (frame rectified : Image) (offset_info : OffsetInfo) :
  let p := snapshot_of snapshot_path in
  (w_files w !! p = None /\ dir_exists p w = false
   /\ Forall (fun a => w_files w !! a = None) (ancestors (parent p)))
  \/ ((exists text, w_files w !! p = Some (FText text))
      /\ dir_exists (parent p) w = true) ->
  w_camera w = Some frame ->
  transform ov frame = Ok (rectified, offset_info) ->
  exists w' : World,
    _get_rectified_frame ov snapshot_path w
    = (Ok (rectified, img_width rectified, img_height rectified,
           offset_info), w')
    /\ w_files w'
       = <[rectified_path := FImage rectified]>
           (<[p := FImage frame]> (w_files w))
    /\ w_log w' = w_log w ++ [CameraFetched].
Proof.
  intros p Hcase Hcam Htr. rewrite get_rectified_frame_path. fold p.
  assert (fetch_axis_snapshot w = (Ok frame, add_log w CameraFetched))
    as Hfetch.
  { unfold fetch_axis_snapshot. by rewrite Hcam. }
  assert (forall w3 : World,
            w_files w3 = <[p := FImage frame]> (w_files w) ->
            w_log w3 = w_log w ++ [CameraFetched] ->
            exists w' : World,
              ('(rectified, offset_info) ← transform_image ov p;
               _ ← cv2_imwrite rectified_path rectified;
               mret (rectified, img_width rectified, img_height rectified,
                     offset_info)) w3
              = (Ok (rectified, img_width rectified, img_height rectified,
                     offset_info), w')
              /\ w_files w'
                 = <[rectified_path := FImage rectified]>
                     (<[p := FImage frame]> (w_files w))
              /\ w_log w' = w_log w ++ [CameraFetched]) as Hrest.
  { intros w3 Hfiles Hlog.
    erewrite io_bind_ok; cycle 1.
    { rewrite (transform_image_at ov p frame w3), Htr; [reflexivity|].
      rewrite Hfiles. apply lookup_insert_eq. }
    simpl.
    rewrite (io_bind_ok _ _ _ _ _
               (imwrite_written rectified_path _ _ (root_dir_exists _))).
    eexists. split; [reflexivity|]. simpl. by rewrite Hfiles. }
  unfold _get_rectified_frame.
  destruct Hcase as [(Hnone & Hnodir & Hfree) | ([text Htext] & Hdir)].
  - rewrite (io_bind_ok _ _ _ _ _ (path_exists_false _ _ Hnone Hnodir)).
    set (w1 := add_log w CameraFetched).
    erewrite io_bind_ok; cycle 1.
    { rewrite (io_bind_ok _ _ _ _ _ Hfetch).
      rewrite (io_bind_ok _ _ _ _ _ (mkdir_parents_made _ w1 Hfree)).
      rewrite (io_bind_ok _ _ _ _ _
                 (imwrite_written _ _ _ (dir_exists_made _ w1))).
      reflexivity. }
    by apply Hrest.
  - rewrite (io_bind_ok _ _ _ _ _ (path_exists_file _ _ _ Htext)).
    set (w1 := add_log w CameraFetched).
    erewrite io_bind_ok; cycle 1.
    { erewrite io_bind_ok
        by (unfold cv2_imread; rewrite Htext; reflexivity).
      simpl. rewrite (io_bind_ok _ _ _ _ _ Hfetch).
      erewrite io_bind_ok by (by apply imwrite_written).
      reflexivity. }
    by apply Hrest.
Qed.

(** X12: with a snapshot on disk that reads as an image,
    [_get_rectified_frame] does not contact the camera: it works with
    the camera out of reach, returns the overlay's rectification of the
    stored image, and changes nothing but the rectified-image file. *)
Theorem saved_snapshot_needs_no_camera (ov : GPSOverlay)
    (snapshot_path : option path) (w : World)
    (img rectified : Image) (offset_info : OffsetInfo) :
  w_files w !! snapshot_of snapshot_path = Some (FImage img) ->
  transform ov img = Ok (rectified, offset_info) ->
  exists w' : World,
    _get_rectified_frame ov snapshot_path (unplug w)
    = (Ok (rectified, img_width rectified, img_height rectified,
           offset_info), w')
    /\ w_log w' = w_log w
    /\ w_dirs w' = w_dirs w
    /\ forall q : path, q <> rectified_path ->
         w_files w' !! q = w_files w !! q.
Proof.
  intros Hfile Htr.
  rewrite (frame_from_snapshot ov snapshot_path (unplug w) img rectified
             offset_info Hfile Htr).
  eexists. split; [reflexivity|]. simpl. split; [done|]. split; [done|].
  intros q Hq. by rewrite lookup_insert_ne.
Qed.

(** [saved_snapshot_needs_no_camera] with [snapshot_raw.png] in place. *)
Lemma saved_snapshot_needs_no_camera_witness :
  let ov := mkGPSOverlay 2 2 (fun _ _ => mkCellInfo false 0 0)
              (fun img => Ok (img, mkOffsetInfo 3 4)) in
  let frame := mkImage 2 2 [1; 2; 3; 4] in
  let w := mkWorld {[ ["snapshot_raw.png"%string] := FImage frame ]}
             ∅ None [] in
  exists w' : World,
    _get_rectified_frame ov None w
    = (Ok (frame, 2, 2, mkOffsetInfo 3 4), w')
    /\ w_log w' = [].
Proof.
  intros ov frame w.
  destruct (saved_snapshot_needs_no_camera ov None w frame frame
              (mkOffsetInfo 3 4) eq_refl eq_refl)
    as (w' & Hrun & Hlog & _).
  exists w'. split; [exact Hrun | exact Hlog].
Defined.

Lemma no_camera_no_frame (ov : GPSOverlay)
    (snapshot_path : option path) (w : World) :
  let p := snapshot_of snapshot_path in
  (w_files w !! p = None /\ dir_exists p w = false)
  \/ (exists text, w_files w !! p = Some (FText text)) ->
  w_camera w = None ->
  _get_rectified_frame ov snapshot_path w = (Raise CameraError, w).
Proof.
  intros p Hcase Hcam. rewrite get_rectified_frame_path. fold p.
  assert (fetch_axis_snapshot w = (Raise CameraError, w)) as Hfetch.
  { unfold fetch_axis_snapshot. by rewrite Hcam. }
  unfold _get_rectified_frame.
  destruct Hcase as [[Hnone Hnodir] | [text Htext]].
  - rewrite (io_bind_ok _ _ _ _ _ (path_exists_false _ _ Hnone Hnodir)).
    unfold mbind, io_bind. by rewrite Hfetch.
  - rewrite (io_bind_ok _ _ _ _ _ (path_exists_file _ _ _ Htext)).
    unfold mbind, io_bind, cv2_imread. rewrite Htext. by rewrite Hfetch.
Qed.

(** X13: when there is no readable snapshot and the camera does not
    answer, [_get_rectified_frame] raises the camera's error and leaves
    the world as it was: no file is written and no directory made. *)
Theorem camera_failure_is_fatal (ov : GPSOverlay)
    (snapshot_path : option path) (w : World) :
  let p := snapshot_of snapshot_path in
  (w_files w !! p = None /\ dir_exists p w = false)
  \/ (exists text, w_files w !! p = Some (FText text)) ->
  w_camera w = None ->
  _get_rectified_frame ov snapshot_path w = (Raise CameraError, w).
Proof. apply no_camera_no_frame. Qed.

(** [camera_failure_is_fatal] in an empty world. *)
Lemma camera_failure_is_fatal_witness :
  _get_rectified_frame
    (mkGPSOverlay 2 2 (fun _ _ => mkCellInfo false 0 0)
       (fun img => Ok (img, mkOffsetInfo 3 4)))
    None (mkWorld ∅ ∅ None [])
  = (Raise CameraError, mkWorld ∅ ∅ None []).
Proof.
  apply (camera_failure_is_fatal
           (mkGPSOverlay 2 2 (fun _ _ => mkCellInfo false 0 0)
              (fun img => Ok (img, mkOffsetInfo 3 4)))
           None (mkWorld ∅ ∅ None [])).
  - left. split; reflexivity.
  - reflexivity.
Defined.

(** X14: the snapshot saved by a recovering call serves the next one:
    after [_get_rectified_frame] has fetched a frame, a second call on
    the world it left, even with the camera out of reach, returns the
    same result without fetching. *)
Theorem second_call_reuses_snapshot (ov : GPSOverlay)
    (snapshot_path : option path) (w : World)
    (frame rectified : Image) (offset_info : OffsetInfo) :
  let p := snapshot_of snapshot_path in
  (w_files w !! p = None /\ dir_exists p w = false
   /\ Forall (fun a => w_files w !! a = None) (ancestors (parent p)))
  \/ ((exists text, w_files w !! p = Some (FText text))
      /\ dir_exists (parent p) w = true) ->
  w_camera w = Some frame ->
  transform ov frame = Ok (rectified, offset_info) ->
  p <> rectified_path ->
  exists w1 w2 : World,
    let result := Ok (rectified, img_width rectified, img_height rectified,
                      offset_info) in
    _get_rectified_frame ov snapshot_path w = (result, w1)
    /\ _get_rectified_frame ov snapshot_path (unplug w1) = (result, w2)
    /\ w_log w2 = w_log w1
    /\ w_files w2 = w_files w1.
Proof.
  intros p Hcase Hcam Htr Hne.
  destruct (frame_from_camera ov snapshot_path w frame rectified offset_info
              Hcase Hcam Htr) as (w1 & Hfirst & Hfiles & Hlog).
  assert (w_files (unplug w1) !! p = Some (FImage frame)) as Hsaved.
  { simpl. rewrite Hfiles, lookup_insert_ne by done. apply lookup_insert_eq. }
  exists w1. eexists. split; [exact Hfirst|].
  split; [exact (frame_from_snapshot ov snapshot_path (unplug w1) frame
                   rectified offset_info Hsaved Htr)|].
  simpl. split; [done|]. rewrite Hfiles. apply insert_insert_eq.
Qed.

(** [second_call_reuses_snapshot] starting without a snapshot. *)
Lemma second_call_reuses_snapshot_witness :
  let ov := mkGPSOverlay 2 2 (fun _ _ => mkCellInfo false 0 0)
              (fun img => Ok (img, mkOffsetInfo 3 4)) in
  let frame := mkImage 2 2 [1; 2; 3; 4] in
  exists w1 w2 : World,
    _get_rectified_frame ov None (mkWorld ∅ ∅ (Some frame) [])
    = (Ok (frame, 2, 2, mkOffsetInfo 3 4), w1)
    /\ _get_rectified_frame ov None (unplug w1)
       = (Ok (frame, 2, 2, mkOffsetInfo 3 4), w2)
    /\ w_log w2 = w_log w1
    /\ w_files w2 = w_files w1.
Proof.
  intros ov frame.
  apply (second_call_reuses_snapshot ov None
           (mkWorld ∅ ∅ (Some frame) []) frame frame (mkOffsetInfo 3 4)).
  - left. split; [reflexivity|]. split; [reflexivity|]. constructor.
  - reflexivity.
  - reflexivity.
  - discriminate.
Defined.

(** ** What the editor writes *)

(** The files outside [paths] are the same in [w'] as in [w]. *)
Definition files_kept_outside (paths : list path) (w w' : World) : Prop :=
  forall q : path, q ∉ paths -> w_files w' !! q = w_files w !! q.

(** Whatever [m] returns or raises, it changes no file outside [paths]. *)
Definition touches_only {A} (paths : list path) (m : IO A) : Prop :=
  forall (w w' : World) (r : result A),
    m w = (r, w') -> files_kept_outside paths w w'.

Lemma files_kept_refl (paths : list path) (w w' : World) :
  w_files w' = w_files w -> files_kept_outside paths w w'.
Proof. intros Heq q _. by rewrite Heq. Qed.

Lemma files_kept_trans (paths : list path) (w1 w2 w3 : World) :
  files_kept_outside paths w1 w2 -> files_kept_outside paths w2 w3 ->
  files_kept_outside paths w1 w3.
Proof. intros H12 H23 q Hq. by rewrite (H23 q Hq), (H12 q Hq). Qed.

Lemma touches_ret {A} (paths : list path) (a : A) :
  touches_only paths (mret a : IO A).
Proof. intros w w' r [= _ <-]. by apply files_kept_refl. Qed.

Lemma touches_raise {A} (paths : list path) (e : exn) :
  touches_only paths (io_raise e : IO A).
Proof. intros w w' r [= _ <-]. by apply files_kept_refl. Qed.

Lemma touches_lift {A} (paths : list path) (x : result A) :
  touches_only paths (io_lift x).
Proof. intros w w' r [= _ <-]. by apply files_kept_refl. Qed.

Lemma touches_log (paths : list path) (e : effect) :
  touches_only paths (io_log e).
Proof. intros w w' r [= _ <-]. by apply files_kept_refl. Qed.

Lemma touches_bind {A B} (paths : list path) (m : IO A) (f : A -> IO B) :
  touches_only paths m -> (forall a : A, touches_only paths (f a)) ->
  touches_only paths (m ≫= f).
Proof.
  intros Hm Hf w w' r. unfold mbind, io_bind.
  destruct (m w) as [[a|e] w1] eqn:Hrun.
  - intros Hrest. eapply files_kept_trans; [by eapply Hm|by eapply Hf].
  - intros [= _ <-]. by eapply Hm.
Qed.

Lemma touches_path_exists (paths : list path) (p : path) :
  touches_only paths (path_exists p).
Proof. intros w w' r [= _ <-]. by apply files_kept_refl. Qed.

Lemma touches_imread (paths : list path) (p : path) :
  touches_only paths (cv2_imread p).
Proof. intros w w' r [= _ <-]. by apply files_kept_refl. Qed.

Lemma touches_fetch (paths : list path) :
  touches_only paths fetch_axis_snapshot.
Proof.
  intros w w' r. unfold fetch_axis_snapshot.
  destruct (w_camera w); intros [= _ <-]; by apply files_kept_refl.
Qed.

Lemma touches_mkdir (paths : list path) (d : path) :
  touches_only paths (mkdir_parents d).
Proof.
  intros w w' r. unfold mkdir_parents.
  destruct (bool_decide _); intros [= _ <-]; by apply files_kept_refl.
Qed.

Lemma touches_load_grid (paths : list path) (p : path) :
  touches_only paths (load_grid p).
Proof.
  intros w w' r. unfold load_grid.
  destruct (w_files w !! p) as [[text|img]|];
    [destruct (Json.loads text)|..]; intros [= _ <-];
    by apply files_kept_refl.
Qed.

Lemma touches_imwrite (paths : list path) (p : path) (img : Image) :
  p ∈ paths -> touches_only paths (cv2_imwrite p img).
Proof.
  intros Hp w w' r. unfold cv2_imwrite.
  destruct (dir_exists (parent p) w); intros [= _ <-];
    [|by apply files_kept_refl].
  intros q Hq. simpl. apply lookup_insert_ne. by intros ->.
Qed.

Lemma touches_save_grid (paths : list path) (g : Grid) (p : path) :
  p ∈ paths -> touches_only paths (save_grid g p).
Proof.
  intros Hp w w' r. unfold save_grid.
  destruct (dir_exists (parent p) w); intros [= _ <-];
    [|by apply files_kept_refl].
  intros q Hq. simpl. apply lookup_insert_ne. by intros ->.
Qed.

Lemma touches_transform_image (paths : list path) (ov : GPSOverlay)
    (p : path) :
  touches_only paths (transform_image ov p).
Proof.
  apply touches_bind; [apply touches_imread|].
  intros [img|]; [apply touches_lift|apply touches_raise].
Qed.

Lemma touches_get_rectified_frame (paths : list path) (ov : GPSOverlay)
    (snapshot_path : option path) :
  snapshot_of snapshot_path ∈ paths -> rectified_path ∈ paths ->
  touches_only paths (_get_rectified_frame ov snapshot_path).
Proof.
  intros Hsnap Hrect. rewrite get_rectified_frame_path.
  unfold _get_rectified_frame.
  apply touches_bind; [apply touches_path_exists|]. intros found.
  apply touches_bind.
  - destruct found.
    + apply touches_bind; [apply touches_imread|]. intros [img|].
      * apply touches_ret.
      * apply touches_bind; [apply touches_fetch|]. intros raw.
        apply touches_bind; [by apply touches_imwrite|]. intros _.
        apply touches_ret.
    + apply touches_bind; [apply touches_fetch|]. intros raw.
      apply touches_bind; [apply touches_mkdir|]. intros _.
      apply touches_bind; [by apply touches_imwrite|]. intros _.
      apply touches_ret.
  - intros raw.
    apply touches_bind; [apply touches_transform_image|].
    intros [rectified offset_info].
    apply touches_bind; [by apply touches_imwrite|]. intros _.
    apply touches_ret.
Qed.

Lemma grid_path_after_mouse (state : EditorState) (ev : MouseEvent) :
  grid_path (after_mouse state ev) = grid_path state.
Proof.
  unfold after_mouse.
  destruct (_handle_mouse _ _ _ _ state) as [state'|e] eqn:Hh; [|done].
  by apply handle_mouse_cases in Hh
    as [-> | (r & c & row & v' & _ & _ & _ & ->)].
Qed.

Lemma grid_path_after_mouse_events (evs : list MouseEvent)
    (state : EditorState) :
  grid_path (after_mouse_events state evs) = grid_path state.
Proof.
  revert state. induction evs as [|ev evs IH]; intros state; [done|].
  unfold after_mouse_events in *. cbn [foldl].
  by rewrite IH, grid_path_after_mouse.
Qed.

(** A poll whose key is [s]. *)
Definition is_save (poll : Poll) : Prop := Z.land (poll_key poll) 255 = 115.

Section EditorWrites.
Variables (_draw_grid_overlay _draw_header_overlay
             : Image -> EditorState -> result Image).

Lemma touches_editor_loop (paths : list path) (polls : list Poll)
    (base : Image) (state : EditorState) (is_fullscreen : bool) :
  rectified_with_grid_path ∈ paths ->
  grid_path state ∈ paths \/ Forall (fun poll => ~ is_save poll) polls ->
  touches_only paths
    (editor_loop _draw_grid_overlay _draw_header_overlay polls base state
       is_fullscreen).
Proof.
  intros Himg. revert state is_fullscreen.
  induction polls as [|poll polls IH]; intros state is_fullscreen Hsave.
  - apply touches_ret.
  - cbn [editor_loop].
    apply touches_bind; [apply touches_lift|]. intros display_frame.
    apply touches_bind; [apply touches_lift|]. intros with_header.
    apply touches_bind; [apply touches_log|]. intros _. cbv zeta.
    destruct (Z.land (poll_key poll) 255 =? 113); [apply touches_ret|].
    apply touches_bind.
    { destruct (Z.eqb_spec (Z.land (poll_key poll) 255) 115) as [Hs|_];
        [|apply touches_ret].
      apply touches_save_grid. rewrite grid_path_after_mouse_events.
      destruct Hsave as [Hin|Hno]; [done|].
      by apply Forall_cons in Hno as [Hno _]. }
    intros _. apply touches_bind.
    { destruct (Z.land (poll_key poll) 255 =? 105); [|apply touches_ret].
      apply touches_bind; [by apply touches_imwrite|]. intros _.
      apply touches_ret. }
    intros _. apply touches_bind.
    { destruct (Z.land (poll_key poll) 255 =? 102); [|apply touches_ret].
      apply touches_bind; [apply touches_log|]. intros _.
      apply touches_ret. }
    intros fs. apply IH. rewrite grid_path_after_mouse_events.
    destruct Hsave as [Hin|Hno]; [by left|right].
    by apply Forall_cons in Hno as [_ Hno].
Qed.

Lemma touches_finally (paths : list path)
    (loop : IO (loop_end * EditorState)) :
  touches_only paths loop -> touches_only paths (try_finally_destroy loop).
Proof.
  intros Hloop w w' r. unfold try_finally_destroy.
  destruct (loop w) as [[[[|] state']|e] w1] eqn:Hrun;
    intros [= _ <-]; intros q Hq; simpl; by eapply Hloop.
Qed.

Lemma touches_run_editor (paths : list path) (ov : GPSOverlay)
    (gpath : path) (polls : list Poll) :
  ["snapshot_raw.png"%string] ∈ paths -> rectified_path ∈ paths ->
  rectified_with_grid_path ∈ paths ->
  gpath ∈ paths \/ Forall (fun poll => ~ is_save poll) polls ->
  touches_only paths
    (run_editor _draw_grid_overlay _draw_header_overlay ov gpath polls).
Proof.
  intros Hraw Hrect Hgrid Hsave. unfold run_editor.
  apply touches_bind; [apply touches_load_grid|]. intros persisted.
  apply touches_bind; [apply touches_lift|]. intros g.
  apply touches_bind; [by apply touches_get_rectified_frame|].
  intros [[[rectified rect_width] rect_height] offset_info].
  apply touches_bind; [apply touches_log|]. intros _.
  apply touches_bind; [apply touches_log|]. intros _.
  apply touches_bind; [apply touches_log|]. intros _.
  apply touches_bind; [apply touches_lift|]. intros initial.
  apply touches_bind; [by apply touches_imwrite|]. intros _.
  by apply touches_finally, touches_editor_loop.
Qed.

(** X15: unless [s] is pressed, [run_editor] leaves the grid file
    exactly as it found it, whatever is clicked, whichever other keys
    come, and also when it ends in an exception (the grid path being
    none of the three image files it writes). *)
Theorem grid_file_kept_without_save (ov : GPSOverlay) (gpath : path)
    (polls : list Poll) (w w' : World)
    (r : result (loop_end * EditorState)) :
  Forall (fun poll => ~ is_save poll) polls ->
  gpath ∉ [["snapshot_raw.png"%string]; rectified_path;
           rectified_with_grid_path] ->
  run_editor _draw_grid_overlay _draw_header_overlay ov gpath polls w
  = (r, w') ->
  w_files w' !! gpath = w_files w !! gpath.
Proof.
  intros Hno Hpath Hrun.
  refine (touches_run_editor _ ov gpath polls _ _ _ _ w w' r Hrun gpath Hpath).
  - apply list_elem_of_here.
  - apply list_elem_of_further, list_elem_of_here.
  - do 2 apply list_elem_of_further. apply list_elem_of_here.
  - by right.
Qed.

(** X16: [run_editor] writes to no file other than the raw snapshot,
    the two rectified images and the grid file, however it ends. *)
Theorem run_editor_writes_four_files (ov : GPSOverlay) (gpath : path)
    (polls : list Poll) (w w' : World)
    (r : result (loop_end * EditorState)) (q : path) :
  run_editor _draw_grid_overlay _draw_header_overlay ov gpath polls w
  = (r, w') ->
  q ∉ [["snapshot_raw.png"%string]; rectified_path;
       rectified_with_grid_path; gpath] ->
  w_files w' !! q = w_files w !! q.
Proof.
  intros Hrun Hq.
  refine (touches_run_editor _ ov gpath polls _ _ _ _ w w' r Hrun q Hq).
  - apply list_elem_of_here.
  - apply list_elem_of_further, list_elem_of_here.
  - do 2 apply list_elem_of_further. apply list_elem_of_here.
  - left. do 3 apply list_elem_of_further. apply list_elem_of_here.
Qed.

End EditorWrites.

(** A small editing session for the statements about [run_editor]: a
    2x2 arena of 20 by 20 pixels, a saved grid file and a camera. *)
Definition demo_overlay : GPSOverlay :=
  mkGPSOverlay 2 2
    (fun x y =>
       mkCellInfo ((0 <=? x) && (x <? 20) && (0 <=? y) && (y <? 20))
         (y / 10) (x / 10))
    (fun img => Ok (img, mkOffsetInfo 0 0)).

Definition demo_world : World :=
  mkWorld {[ ["grid.json"%string] := FText "[[0, 1], [2, 0]]" ]} ∅
    (Some (mkImage 20 20 [])) [].

Definition demo_draw : Image -> EditorState -> result Image :=
  fun img _ => Ok img.

(** [grid_file_kept_without_save]: two clicks, [i], [f] and [q]. *)
Lemma grid_file_kept_without_save_witness :
  let polls := [mkPoll [mkMouseEvent 1 15 5 0] 105;
                mkPoll [mkMouseEvent 1 5 15 0] 102;
                mkPoll [] 113] in
  w_files (run_editor demo_draw demo_draw demo_overlay
             ["grid.json"%string] polls demo_world).2
    !! ["grid.json"%string]
  = Some (FText "[[0, 1], [2, 0]]").
Proof.
  intros polls.
  refine (grid_file_kept_without_save demo_draw demo_draw demo_overlay
            ["grid.json"%string] polls demo_world _ _ _ _
            (surjective_pairing _)).
  - repeat constructor; discriminate.
  - intros Hin. repeat (apply elem_of_cons in Hin as [Heq|Hin];
                          [discriminate Heq|]).
    by apply elem_of_nil in Hin.
Defined.

(** [run_editor_writes_four_files]: a file of the operator's survives a
    session with a save. *)
Lemma run_editor_writes_four_files_witness :
  let polls := [mkPoll [mkMouseEvent 1 15 5 0] 115; mkPoll [] 113] in
  let w := mkWorld (<[ ["notes.txt"%string] := FText "keep" ]>
                      (w_files demo_world)) ∅
             (Some (mkImage 20 20 [])) [] in
  w_files (run_editor demo_draw demo_draw demo_overlay
             ["grid.json"%string] polls w).2
    !! ["notes.txt"%string]
  = Some (FText "keep").
Proof.
  intros polls w.
  refine (run_editor_writes_four_files demo_draw demo_draw demo_overlay
            ["grid.json"%string] polls w _ _ ["notes.txt"%string]
            (surjective_pairing _) _).
  intros Hin. repeat (apply elem_of_cons in Hin as [Heq|Hin];
                        [discriminate Heq|]).
  by apply elem_of_nil in Hin.
Defined.

(** ** Quitting *)

Lemma io_bind_ext {A B} (m : IO A) (f g : A -> IO B) (w : World) :
  (forall (a : A) (w1 : World), f a w1 = g a w1) ->
  (m ≫= f) w = (m ≫= g) w.
Proof.
  intros Hfg. unfold mbind, io_bind. destruct (m w) as [[a|e] w1]; [|done].
  apply Hfg.
Qed.

(** A poll whose key is [q]. *)
Definition is_quit (poll : Poll) : Prop := Z.land (poll_key poll) 255 = 113.

Section Quitting.
Variables (_draw_grid_overlay _draw_header_overlay
             : Image -> EditorState -> result Image).

Lemma editor_loop_quit (before after : list Poll) (poll : Poll)
    (base : Image) (state : EditorState) (is_fullscreen : bool) (w : World) :
  is_quit poll ->
  editor_loop _draw_grid_overlay _draw_header_overlay
    (before ++ poll :: after) base state is_fullscreen w
  = editor_loop _draw_grid_overlay _draw_header_overlay
      (before ++ [poll]) base state is_fullscreen w.
Proof.
  intros Hq. revert state is_fullscreen w.
  induction before as [|p before IH]; intros state is_fullscreen w.
  - cbn [app editor_loop].
    apply io_bind_ext. intros display_frame w1.
    apply io_bind_ext. intros with_header w2.
    apply io_bind_ext. intros _ w3. cbv zeta.
    unfold is_quit in Hq. by rewrite Hq.
  - cbn [app editor_loop].
    apply io_bind_ext. intros display_frame w1.
    apply io_bind_ext. intros with_header w2.
    apply io_bind_ext. intros _ w3. cbv zeta.
    destruct (Z.land (poll_key p) 255 =? 113); [done|].
    apply io_bind_ext. intros _ w4.
    apply io_bind_ext. intros _ w5.
    apply io_bind_ext. intros fs w6.
    apply IH.
Qed.

Lemma editor_loop_quits (before after : list Poll) (poll : Poll)
    (base : Image) (state state' : EditorState) (is_fullscreen : bool)
    (w w' : World) (e : loop_end) :
  is_quit poll ->
  editor_loop _draw_grid_overlay _draw_header_overlay
    (before ++ poll :: after) base state is_fullscreen w
  = (Ok (e, state'), w') ->
  e = Quit.
Proof.
  intros Hq. revert state is_fullscreen w.
  induction before as [|p before IH]; intros state is_fullscreen w Hrun;
    cbn [app editor_loop] in Hrun;
    apply io_bind_inv in Hrun as (display_frame & w1 & _ & Hrun);
    apply io_bind_inv in Hrun as (with_header & w2 & _ & Hrun);
    apply io_bind_inv in Hrun as (? & w3 & _ & Hrun);
    cbv zeta in Hrun.
  - unfold is_quit in Hq. rewrite Hq in Hrun. by injection Hrun as <- _ _.
  - destruct (Z.land (poll_key p) 255 =? 113);
      [by injection Hrun as <- _ _|].
    apply io_bind_inv in Hrun as (? & w4 & _ & Hrun).
    apply io_bind_inv in Hrun as (? & w5 & _ & Hrun).
    apply io_bind_inv in Hrun as (fs & w6 & _ & Hrun).
    by eapply IH.
Qed.

(** X17: [q] ends the session: the polls after the first [q] are never
    looked at, and a run that gets through a [q] poll without an
    exception has quit and destroyed its window as its last effect. *)
Theorem quit_ends_the_session (ov : GPSOverlay) (gpath : path)
    (before after : list Poll) (poll : Poll) (w : World) :
  is_quit poll ->
  run_editor _draw_grid_overlay _draw_header_overlay ov gpath
    (before ++ poll :: after) w
  = run_editor _draw_grid_overlay _draw_header_overlay ov gpath
      (before ++ [poll]) w
  /\ forall (e : loop_end) (state' : EditorState) (w' : World),
       run_editor _draw_grid_overlay _draw_header_overlay ov gpath
         (before ++ poll :: after) w
       = (Ok (e, state'), w') ->
       e = Quit
       /\ exists log : list effect,
            w_log w' = log ++ [DestroyWindow window_name].
Proof.
  intros Hq. split.
  - unfold run_editor.
    apply io_bind_ext. intros persisted w1.
    apply io_bind_ext. intros g w2.
    apply io_bind_ext.
    intros [[[rectified rect_width] rect_height] offset_info] w3.
    apply io_bind_ext. intros _ w4.
    apply io_bind_ext. intros _ w5.
    apply io_bind_ext. intros _ w6.
    apply io_bind_ext. intros initial w7.
    apply io_bind_ext. intros _ w8.
    unfold try_finally_destroy. by rewrite editor_loop_quit.
  - intros e state' w' Hrun. unfold run_editor in Hrun.
    apply io_bind_inv in Hrun as (persisted & w1 & _ & Hrun).
    apply io_bind_inv in Hrun as (g & w2 & _ & Hrun).
    apply io_bind_inv in Hrun
      as ([[[rectified rect_width] rect_height] offset_info] & w3 & _ & Hrun).
    apply io_bind_inv in Hrun as (? & w4 & _ & Hrun).
    apply io_bind_inv in Hrun as (? & w5 & _ & Hrun).
    apply io_bind_inv in Hrun as (? & w6 & _ & Hrun).
    apply io_bind_inv in Hrun as (initial & w7 & _ & Hrun).
    apply io_bind_inv in Hrun as (? & w8 & _ & Hrun).
    unfold try_finally_destroy in Hrun.
    destruct (editor_loop _ _ _ _ _ _ w8) as [[[e1 state1]|err] w9]
      eqn:Hloop; [|by destruct err].
    apply editor_loop_quits in Hloop as ->; [|done].
    injection Hrun as <- <- <-. split; [done|]. by eexists.
Qed.

End Quitting.

(** [quit_ends_the_session]: a click and a save after [q] change
    nothing. *)
Lemma quit_ends_the_session_witness :
  run_editor demo_draw demo_draw demo_overlay ["grid.json"%string]
    ([mkPoll [mkMouseEvent 1 15 5 0] 255]
     ++ mkPoll [] 113 :: [mkPoll [mkMouseEvent 1 5 5 0] 115]) demo_world
  = run_editor demo_draw demo_draw demo_overlay ["grid.json"%string]
      ([mkPoll [mkMouseEvent 1 15 5 0] 255] ++ [mkPoll [] 113]) demo_world.
Proof.
  refine (proj1 (quit_ends_the_session demo_draw demo_draw demo_overlay
                   ["grid.json"%string]
                   [mkPoll [mkMouseEvent 1 15 5 0] 255]
                   [mkPoll [mkMouseEvent 1 5 5 0] 115]
                   (mkPoll [] 113) demo_world _)).
  reflexivity.
Defined.

(** ** What [_draw_grid_overlay] draws *)

Module Draw.

(** The exceptions of the drawing code: those of [exn], and the three
    that arithmetic on ints and floats raises. *)
Inductive error : Type :=
  | Std (e : exn)
  | ZeroDivisionError
  | ValueError
  | OverflowError.

Inductive dresult (A : Type) : Type :=
  | DOk (a : A)
  | DRaise (e : error).
Arguments DOk {A} a.
Arguments DRaise {A} e.

#[global] Instance dresult_ret : MRet dresult := fun A a => DOk a.
#[global] Instance dresult_bind : MBind dresult := fun A B f m =>
  match m with
  | DOk a => f a
  | DRaise e => DRaise e
  end.

Definition lift {A} (r : result A) : dresult A :=
  match r with
  | Ok a => DOk a
  | Raise e => DRaise (Std e)
  end.

Fixpoint for_each {A S} (xs : list A) (body : A -> S -> dresult S) (s : S)
  : dresult S :=
  match xs with
  | [] => DOk s
  | x :: xs' => s' ← body x s; for_each xs' body s'
  end.

(** [float(n)], exact for [|n| < 2^53]. *)
Definition float_of_int (n : Z) : float :=
  if n <? 0 then PrimFloat.opp (PrimFloat.of_uint63 (Uint63.of_Z (- n)))
  else PrimFloat.of_uint63 (Uint63.of_Z n).

(** [int(x)]: truncation towards zero; ValueError on a NaN and
    OverflowError on an infinity. *)
Definition int_of_float (x : float) : dresult Z :=
  match FloatOps.Prim2SF x with
  | SpecFloat.S754_zero _ => DOk 0
  | SpecFloat.S754_finite sign m e =>
      let magnitude :=
        if 0 <=? e then Z.pos m * 2 ^ e else Z.pos m / 2 ^ (- e) in
      DOk (if sign then - magnitude else magnitude)
  | SpecFloat.S754_infinity _ => DRaise OverflowError
  | SpecFloat.S754_nan => DRaise ValueError
  end.

(** [a / b] on ints within [|n| < 2^53]. *)
Definition truediv (a b : Z) : dresult float :=
  if b =? 0 then DRaise ZeroDivisionError
  else DOk (PrimFloat.div (float_of_int a) (float_of_int b)).

(** [state.arena_bounds] *)
Record ArenaBounds : Type := mkArenaBounds {
  bounds_left : float;
  bounds_top : float;
  bounds_right : float;
  bounds_bottom : float;
}.

(** One call of [cv2.rectangle] on the tinted copy. *)
Record Rectangle : Type := mkRectangle {
  top_left : Z * Z;
  bottom_right : Z * Z;
  color : Z * Z * Z;
  thickness : Z;
}.

(** [start + (index * extent / count)] *)
Definition edge (start extent index count : Z) : dresult float :=
  q ← truediv (index * extent) count;
  mret (PrimFloat.add (float_of_int start) q).

(** The body of the inner loop once the cell value is read. *)
Definition draw_cell (grid_left grid_top grid_right grid_bottom : Z)
    (rows cols row_idx col_idx cell_value : Z) : dresult (list Rectangle) :=
  if cell_value =? FREE then mret []
  else
    left_x ← edge grid_left (grid_right - grid_left) col_idx cols;
    right_x ← edge grid_left (grid_right - grid_left) (col_idx + 1) cols;
    top_y ← edge grid_top (grid_bottom - grid_top) row_idx rows;
    bottom_y ← edge grid_top (grid_bottom - grid_top) (row_idx + 1) rows;
    x0 ← int_of_float left_x;
    y0 ← int_of_float top_y;
    x1 ← int_of_float right_x;
    y1 ← int_of_float bottom_y;
    let top_left := (x0, y0) in
    let bottom_right := (x1, y1) in
    let '(fill_colour, border_colour, border_thickness) :=
      if cell_value =? OBSTACLE
      then ((0, 0, 100), (0, 0, 0), 2)
      else ((0, 150, 255), (0, 100, 255), 3) in
    mret [mkRectangle top_left bottom_right fill_colour (-1);
          mkRectangle top_left bottom_right border_colour border_thickness].

(** The arena in image pixels: the four [int(bounds[...] - offset)]. *)
Definition grid_box (bounds : ArenaBounds) (state : EditorState)
  : dresult (Z * Z * Z * Z) :=
  grid_left ← int_of_float
    (PrimFloat.sub (bounds_left bounds) (float_of_int (offset_x state)));
  grid_top ← int_of_float
    (PrimFloat.sub (bounds_top bounds) (float_of_int (offset_y state)));
  grid_right ← int_of_float
    (PrimFloat.sub (bounds_right bounds) (float_of_int (offset_x state)));
  grid_bottom ← int_of_float
    (PrimFloat.sub (bounds_bottom bounds) (float_of_int (offset_y state)));
  mret (grid_left, grid_top, grid_right, grid_bottom).

(** [_draw_grid_overlay], as far as it computes: the cached cell width
    and height and the rectangles drawn on the tinted copy, in order.
    The blend of that copy into the frame is pixel work and is left
    out. *)
Definition _draw_grid_overlay (bounds : ArenaBounds) (state : EditorState)
  : dresult (float * float * list Rectangle) :=
  let rows := rows state in
  let cols := cols state in
  '(grid_left, grid_top, grid_right, grid_bottom) ← grid_box bounds state;
  cell_width ← truediv (grid_right - grid_left) cols;
  cell_height ← truediv (grid_bottom - grid_top) rows;
  drawn ← for_each (Py.range rows) (fun row_idx drawn =>
    for_each (Py.range cols) (fun col_idx drawn =>
      grid_row ← lift (Py.getitem (grid state) row_idx);
      cell_value ← lift (Py.getitem grid_row col_idx);
      new ← draw_cell grid_left grid_top grid_right grid_bottom
              rows cols row_idx col_idx cell_value;
      mret (drawn ++ new)) drawn) [];
  mret (cell_width, cell_height, drawn).

End Draw.




Lemma draw_cell_shape (grid_left grid_top grid_right grid_bottom : Z)
    (nrows ncols row_idx col_idx cell_value : Z)
    (drawn : list Draw.Rectangle) :
  cell_value <> FREE ->
  Draw.draw_cell grid_left grid_top grid_right grid_bottom
    nrows ncols row_idx col_idx cell_value
  = Draw.DOk drawn ->
  exists top_left bottom_right : Z * Z,
    drawn
    = if cell_value =? OBSTACLE
      then [Draw.mkRectangle top_left bottom_right (0, 0, 100) (-1);
            Draw.mkRectangle top_left bottom_right (0, 0, 0) 2]
      else [Draw.mkRectangle top_left bottom_right (0, 150, 255) (-1);
            Draw.mkRectangle top_left bottom_right (0, 100, 255) 3].
Proof.
  intros Hfree. unfold Draw.draw_cell.
  destruct (Z.eqb_spec cell_value FREE) as [|_]; [done|].
  destruct (Draw.edge grid_left _ col_idx ncols) as [left_x|];
    [|done]. cbn [mbind Draw.dresult_bind].
  destruct (Draw.edge grid_left _ (col_idx + 1) ncols) as [right_x|];
    [|done]. cbn [mbind Draw.dresult_bind].
  destruct (Draw.edge grid_top _ row_idx nrows) as [top_y|];
    [|done]. cbn [mbind Draw.dresult_bind].
  destruct (Draw.edge grid_top _ (row_idx + 1) nrows) as [bottom_y|];
    [|done]. cbn [mbind Draw.dresult_bind].
  destruct (Draw.int_of_float left_x) as [x0|]; [|done].
  cbn [mbind Draw.dresult_bind].
  destruct (Draw.int_of_float top_y) as [y0|]; [|done].
  cbn [mbind Draw.dresult_bind].
  destruct (Draw.int_of_float right_x) as [x1|]; [|done].
  cbn [mbind Draw.dresult_bind].
  destruct (Draw.int_of_float bottom_y) as [y1|]; [|done].
  cbn [mbind Draw.dresult_bind].
  intros Hdrawn. exists (x0, y0), (x1, y1).
  destruct (cell_value =? OBSTACLE); by injection Hdrawn as <-.
Qed.

(** X19: a FREE cell is not drawn; any other cell is drawn as exactly
    two rectangles on the same corners, a filled one and then a border,
    in the obstacle colours when it holds OBSTACLE and in the home
    colours for every other value, so a stray value is drawn as HOME. *)
Theorem draw_cell_colours (grid_left grid_top grid_right grid_bottom : Z)
    (nrows ncols row_idx col_idx cell_value : Z) :
  let draw := Draw.draw_cell grid_left grid_top grid_right grid_bottom
                nrows ncols row_idx col_idx in
  draw FREE = Draw.DOk []
  /\ (cell_value <> FREE -> cell_value <> OBSTACLE ->
      draw cell_value = draw HOME)
  /\ forall drawn : list Draw.Rectangle,
       cell_value <> FREE -> draw cell_value = Draw.DOk drawn ->
       exists top_left bottom_right : Z * Z,
         drawn
         = if cell_value =? OBSTACLE
           then [Draw.mkRectangle top_left bottom_right (0, 0, 100) (-1);
                 Draw.mkRectangle top_left bottom_right (0, 0, 0) 2]
           else [Draw.mkRectangle top_left bottom_right (0, 150, 255) (-1);
                 Draw.mkRectangle top_left bottom_right (0, 100, 255) 3].
Proof.
  intros draw. unfold draw. split; [done|]. split.
  - intros Hfree Hobstacle. unfold Draw.draw_cell.
    destruct (Z.eqb_spec cell_value FREE) as [|_]; [done|].
    destruct (Z.eqb_spec cell_value OBSTACLE) as [|_]; [done|].
    reflexivity.
  - intros drawn. apply draw_cell_shape.
Qed.

(** [draw_cell_colours] for a cell holding 7. *)
Lemma draw_cell_colours_witness :
  Draw.draw_cell 5 15 105 215 2 3 0 2 7
  = Draw.DOk
      [Draw.mkRectangle (71, 15) (105, 115) (0, 150, 255) (-1);
       Draw.mkRectangle (71, 15) (105, 115) (0, 100, 255) 3].
Proof.
  destruct (draw_cell_colours 5 15 105 215 2 3 0 2 7) as (_ & Hhome & _).
  rewrite Hhome by discriminate. vm_compute. reflexivity.
Defined.





Section DrawLoops.
Variables (grid_left grid_top grid_right grid_bottom : Z).
Variables (nrows ncols : nat) (g : Grid).
Hypothesis Hrect : rectangular nrows ncols g.
Hypothesis Hdraws :
  forall (r c : nat) (v : Z), cell g r c = Some v -> v <> FREE ->
    exists drawn : list Draw.Rectangle,
      Draw.draw_cell grid_left grid_top grid_right grid_bottom
        (Z.of_nat nrows) (Z.of_nat ncols) (Z.of_nat r) (Z.of_nat c) v
      = Draw.DOk drawn.











End DrawLoops.



(** ** Starting without a frame *)

(** X21: with no readable [snapshot_raw.png] and a camera that does not
    answer, [run_editor] raises the camera's error before any window is
    made: the world is left as it was, whatever the grid file holds and
    whatever input is waiting. *)
Theorem run_editor_needs_a_frame
    (_draw_grid_overlay _draw_header_overlay
       : Image -> EditorState -> result Image)
    (ov : GPSOverlay) (gpath : path) (polls : list Poll) (w : World)
    (persisted : list (list Z)) :
  load_grid gpath w = (Ok persisted, w) ->
  (w_files w !! ["snapshot_raw.png"%string] = None
   /\ dir_exists ["snapshot_raw.png"%string] w = false)
  \/ (exists text,
        w_files w !! ["snapshot_raw.png"%string] = Some (FText text)) ->
  w_camera w = None ->
  run_editor _draw_grid_overlay _draw_header_overlay ov gpath polls w
  = (Raise CameraError, w).
Proof.
  intros Hload Hsnap Hcam. unfold run_editor.
  rewrite (io_bind_ok _ _ _ _ _ Hload).
  erewrite io_bind_ok
    by (unfold io_lift; rewrite seed_grid_refines; reflexivity).
  unfold mbind at 1, io_bind.
  by rewrite (no_camera_no_frame ov None w Hsnap Hcam).
Qed.

(** [run_editor_needs_a_frame] with a grid file but neither snapshot nor
    camera. *)
Lemma run_editor_needs_a_frame_witness :
  run_editor demo_draw demo_draw demo_overlay ["grid.json"%string]
    [mkPoll [] 113] (unplug demo_world)
  = (Raise CameraError, unplug demo_world).
Proof.
  apply (run_editor_needs_a_frame demo_draw demo_draw demo_overlay
           ["grid.json"%string] [mkPoll [] 113] (unplug demo_world)
           [[0; 1]; [2; 0]]).
  - reflexivity.
  - left. split; reflexivity.
  - reflexivity.
Defined.
